(** * imei-scanner: the barcode classification and deduplication engine

    A shallow embedding of the decision core of [src/app.js]
    (class [IMEIUPCScanner]): [analyzeBarcodeType], [getIMEIVendor], the
    three checksum validators, [isDuplicate], [processDetectedBarcodes],
    [addScanResults], [deleteResult] and [loadScanData], followed by the
    properties the specification states about them. *)

From Stdlib Require Import List ZArith NArith Bool Lia Ascii String DecimalString.
Import ListNotations.

Local Open Scope Z_scope.

(** ** JavaScript strings

    A JavaScript string is a sequence of UTF-16 code units; [===] on
    strings compares the sequences. *)

Definition codeunit := N.
Definition jsstring := list codeunit.

Definition lit (s : string) : jsstring :=
  List.map N_of_ascii (list_ascii_of_string s).

Fixpoint jsstring_eqb (a b : jsstring) : bool :=
  match a, b with
  | [], [] => true
  | x :: a', y :: b' => N.eqb x y && jsstring_eqb a' b'
  | _, _ => false
  end.

(** [mem c cs]: is the code unit one of those listed. *)
Definition mem (c : codeunit) (cs : list codeunit) : bool :=
  existsb (N.eqb c) cs.

Definition between (lo hi c : codeunit) : bool :=
  (N.leb lo c && N.leb c hi)%bool.

Arguments between (lo hi c)%_N.

(** The code units [String.prototype.trim] strips: ECMAScript WhiteSpace
    (TAB, VT, FF, SP, NBSP, ZWNBSP and the other space separators) and
    LineTerminator (LF, CR, LS, PS). *)
Definition isWhiteSpace (c : codeunit) : bool :=
  (mem c [9; 10; 11; 12; 13; 32; 160; 5760; 8232; 8233; 8239; 8287; 12288; 65279]
   || between 8192 8202 c)%N%bool.

Fixpoint dropWhile {A} (p : A -> bool) (l : list A) : list A :=
  match l with
  | [] => []
  | x :: l' => if p x then dropWhile p l' else l
  end.

Definition trimStart (s : jsstring) : jsstring := dropWhile isWhiteSpace s.
Definition trimEnd (s : jsstring) : jsstring := rev (dropWhile isWhiteSpace (rev s)).

(** [text.trim()] *)
Definition trim (s : jsstring) : jsstring := trimEnd (trimStart s).

(** [s.substring(0, n)]: the end index is clamped to the length. *)
Definition substring0 (n : nat) (s : jsstring) : jsstring := firstn n s.

(** [s[i]]: the code unit at index [i], [None] for [undefined]. *)
Definition charAt (s : jsstring) (i : nat) : option codeunit := nth_error s i.

(** ** Regular expressions of the classifier

    Every pattern of [analyzeBarcodeType] has the form [/^C{n}$/]: the
    whole input is exactly [n] code units of the class [C]. *)

(** [\d] *)
Definition class_digit (c : codeunit) : bool := between 48 57 c.

(** [[0-9A-F]] under the [i] flag. Without the [u] flag a code unit is
    compared through its upper-case form, and a code unit of 128 or more
    is never folded onto one below 128, so the lower-case letters a to f
    are the only additions. *)
Definition class_hex_i (c : codeunit) : bool :=
  (between 48 57 c || between 65 70 c || between 97 102 c)%bool.

Fixpoint test_exactly (cls : codeunit -> bool) (n : nat) (s : jsstring) : bool :=
  match n, s with
  | O, [] => true
  | S n', c :: s' => cls c && test_exactly cls n' s'
  | _, _ => false
  end.

(** ** JavaScript numbers as the validators use them

    Only small integers and NaN arise: [parseInt] of one code unit is a
    digit value or NaN, and every sum stays far below 2^53. *)

Inductive jsnum :=
| NaN
| Num (z : Z).

Definition num_add (a b : jsnum) : jsnum :=
  match a, b with Num x, Num y => Num (x + y) | _, _ => NaN end.

Definition num_sub (a b : jsnum) : jsnum :=
  match a, b with Num x, Num y => Num (x - y) | _, _ => NaN end.

Definition num_mul (a b : jsnum) : jsnum :=
  match a, b with Num x, Num y => Num (x * y) | _, _ => NaN end.

(** [a % b]: the remainder takes the sign of the dividend. *)
Definition num_rem (a b : jsnum) : jsnum :=
  match a, b with
  | Num x, Num y => if Z.eqb y 0 then NaN else Num (Z.rem x y)
  | _, _ => NaN
  end.

(** [a > b]: false as soon as one side is NaN. *)
Definition num_gt (a b : jsnum) : bool :=
  match a, b with Num x, Num y => Z.gtb x y | _, _ => false end.

(** [a === b] on numbers: NaN equals nothing. *)
Definition num_strict_eq (a b : jsnum) : bool :=
  match a, b with Num x, Num y => Z.eqb x y | _, _ => false end.

(** [parseInt(s[i])]: a single decimal digit gives its value; any other
    code unit, and [undefined], gives NaN. *)
Definition parseInt (c : option codeunit) : jsnum :=
  match c with
  | Some u => if class_digit u then Num (Z.of_N u - 48) else NaN
  | None => NaN
  end.

(** [for (let i = 0; i < n; i++) acc = body(acc, i)] *)
Definition for_loop {A} (n : nat) (body : A -> nat -> A) (init : A) : A :=
  fold_left body (seq 0 n) init.

(** ** Checksum validators *)

Definition validateIMEIChecksum (imei : jsstring) : bool :=
  let sum :=
    for_loop 14 (fun sum i =>
      let digit := parseInt (charAt imei i) in
      let digit :=
        if Nat.eqb (i mod 2) 1 then
          let digit := num_mul digit (Num 2) in
          if num_gt digit (Num 9) then num_sub digit (Num 9) else digit
        else digit in
      num_add sum digit) (Num 0) in
  let checkDigit := num_rem (num_sub (Num 10) (num_rem sum (Num 10))) (Num 10) in
  num_strict_eq checkDigit (parseInt (charAt imei 14)).

Definition validateUPCChecksum (upc : jsstring) : bool :=
  let sum :=
    for_loop 11 (fun sum i =>
      let digit := parseInt (charAt upc i) in
      num_add sum (if Nat.eqb (i mod 2) 0 then digit else num_mul digit (Num 3)))
      (Num 0) in
  let checkDigit := num_rem (num_sub (Num 10) (num_rem sum (Num 10))) (Num 10) in
  num_strict_eq checkDigit (parseInt (charAt upc 11)).

Definition validateEAN13Checksum (ean : jsstring) : bool :=
  let sum :=
    for_loop 12 (fun sum i =>
      let digit := parseInt (charAt ean i) in
      num_add sum (if Nat.eqb (i mod 2) 0 then digit else num_mul digit (Num 3)))
      (Num 0) in
  let checkDigit := num_rem (num_sub (Num 10) (num_rem sum (Num 10))) (Num 10) in
  num_strict_eq checkDigit (parseInt (charAt ean 12)).

(** ** Vendor lookup *)

(** The object literal [vendors]. Its keys are looked up with a key of at
    most two code units, which no inherited property name has, so the
    own properties decide the lookup. *)
Definition vendors : list (string * string) :=
  [("01", "Apple"); ("35", "Samsung"); ("86", "Huawei"); ("99", "Xiaomi")]%string.

Fixpoint vendors_get (tbl : list (string * string)) (key : jsstring) : option string :=
  match tbl with
  | [] => None
  | (k, v) :: tbl' => if jsstring_eqb (lit k) key then Some v else vendors_get tbl' key
  end.

Definition getIMEIVendor (imei : jsstring) : string :=
  let tac := substring0 8 imei in
  match vendors_get vendors (substring0 2 tac) with
  | Some v => v
  | None => "Unknown"%string
  end.

(** ** The classifier *)

Record BarcodeInfo := mkInfo {
  type : string;
  isValid : bool;
  vendor : string;
  checksum : bool
}.

Definition analyzeBarcodeType (text : jsstring) : BarcodeInfo :=
  let cleanText := trim text in
  if test_exactly class_digit 15 cleanText then
    mkInfo "IMEI" true (getIMEIVendor cleanText) (validateIMEIChecksum cleanText)
  else if test_exactly class_hex_i 14 cleanText then
    mkInfo "MEID" true "Unknown" true
  else if test_exactly class_digit 12 cleanText then
    mkInfo "UPC-A" true "Product" (validateUPCChecksum cleanText)
  else if test_exactly class_digit 8 cleanText then
    mkInfo "UPC-E" true "Product" true
  else if test_exactly class_digit 13 cleanText then
    mkInfo "EAN-13" true "Product" (validateEAN13Checksum cleanText)
  else
    mkInfo "Unknown" false "Unknown" false.

(** ** Values and objects

    The scanner keeps plain objects: detection results, scan records and
    the settings. A property holds a primitive, or a reference to an
    object or array that no modelled function opens (a detection's
    [points] and [region]). Own properties are kept in insertion order. *)

Inductive jsval :=
| VUndefined
| VNull
| VBool (b : bool)
| VNum (n : jsnum)
| VStr (s : jsstring)
| VRef (address : N).

Definition jsobj := list (string * jsval).

(** [o.k]: [undefined] when the property is absent. None of the names
    read below ([text], [id], [duplicateHandling]) is inherited. *)
Fixpoint get_prop (o : jsobj) (k : string) : jsval :=
  match o with
  | [] => VUndefined
  | (k', v) :: o' => if String.eqb k' k then v else get_prop o' k
  end.

Fixpoint has_prop (o : jsobj) (k : string) : bool :=
  match o with
  | [] => false
  | (k', _) :: o' => String.eqb k' k || has_prop o' k
  end.

(** Defining [k: v] in an object under construction: an existing
    property keeps its place and takes the new value, a new one goes
    last. *)
Fixpoint set_prop (k : string) (v : jsval) (o : jsobj) : jsobj :=
  match o with
  | [] => [(k, v)]
  | (k', v') :: o' =>
      if String.eqb k' k then (k, v) :: o' else (k', v') :: set_prop k v o'
  end.

(** [{...target, ...source}]: the spread copies the own properties of
    [source] in order. *)
Definition spread (target source : jsobj) : jsobj :=
  fold_left (fun acc kv => set_prop (fst kv) (snd kv) acc) source target.

(** [v === s] where [s] is a string. *)
Definition strict_eq_str (v : jsval) (s : jsstring) : bool :=
  match v with
  | VStr s' => jsstring_eqb s' s
  | _ => false
  end.

(** ** The scanner state

    The fields of [IMEIUPCScanner] that the modelled methods read or
    write. [clock] and [randomSuffix] are the host's answers to the
    successive reads of [Date.now()] and of
    [Math.random().toString(36).substr(2)]; [reads] counts them. The
    DOM, the audio elements, the canvas and the writes to [localStorage]
    touch none of these fields and are left out. *)

Record Scanner := mkScanner {
  currentUser : option jsstring;       (* null until a user is selected *)
  scanData : list jsobj;
  duplicateCount : Z;
  totalScans : Z;
  settings : jsobj;
  sessionId : option jsstring;         (* undefined until first asked for *)
  clock : nat -> Z;
  randomSuffix : nat -> jsstring;
  reads : nat
}.

Definition M (A : Type) : Type := Scanner -> A * Scanner.

Definition ret {A} (a : A) : M A := fun st => (a, st).

Definition bind {A B} (c : M A) (k : A -> M B) : M B :=
  fun st => let (a, st') := c st in k a st'.

Definition gets {A} (f : Scanner -> A) : M A := fun st => (f st, st).

Definition modify (f : Scanner -> Scanner) : M unit := fun st => (tt, f st).

Declare Scope scanner_scope.
Delimit Scope scanner_scope with scanner.
Notation "x <- c ;; k" := (bind c (fun x => k))
  (at level 61, c at next level, right associativity) : scanner_scope.
Notation "c ;;; k" := (bind c (fun _ => k))
  (at level 61, right associativity) : scanner_scope.
Local Open Scope scanner_scope.

Definition result {A} (c : M A) (st : Scanner) : A := fst (c st).
Definition after {A} (c : M A) (st : Scanner) : Scanner := snd (c st).

Definition set_scanData (l : list jsobj) (st : Scanner) : Scanner :=
  mkScanner (currentUser st) l (duplicateCount st) (totalScans st)
            (settings st) (sessionId st) (clock st) (randomSuffix st) (reads st).

Definition set_duplicateCount (n : Z) (st : Scanner) : Scanner :=
  mkScanner (currentUser st) (scanData st) n (totalScans st)
            (settings st) (sessionId st) (clock st) (randomSuffix st) (reads st).

Definition set_totalScans (n : Z) (st : Scanner) : Scanner :=
  mkScanner (currentUser st) (scanData st) (duplicateCount st) n
            (settings st) (sessionId st) (clock st) (randomSuffix st) (reads st).

Definition set_sessionId (s : option jsstring) (st : Scanner) : Scanner :=
  mkScanner (currentUser st) (scanData st) (duplicateCount st) (totalScans st)
            (settings st) s (clock st) (randomSuffix st) (reads st).

Definition set_reads (n : nat) (st : Scanner) : Scanner :=
  mkScanner (currentUser st) (scanData st) (duplicateCount st) (totalScans st)
            (settings st) (sessionId st) (clock st) (randomSuffix st) n.

(** [Date.now()] *)
Definition dateNow : M Z :=
  fun st => (clock st (reads st), set_reads (S (reads st)) st).

(** ** Duplicate guard *)

Definition isDuplicate (text : jsstring) : M bool :=
  dh <- gets (fun st => get_prop (settings st) "duplicateHandling") ;;
  if strict_eq_str dh (lit "allow") then ret false
  else
    data <- gets scanData ;;
    ret (existsb (fun item => strict_eq_str (get_prop item "text") text) data).

(** ** Scan log *)

(** [for (const x of xs) acc = body(acc, x)] with effects. *)
Fixpoint for_of {A B} (body : B -> A -> M B) (xs : list A) (acc : B) : M B :=
  match xs with
  | [] => ret acc
  | x :: xs' => acc' <- body acc x ;; for_of body xs' acc'
  end.

(** [saveScanData] and [updateResultsList], called last, write to
    [localStorage] and to the page. *)
Definition addScanResults (barcodes : list jsobj) : M unit :=
  for_of (fun _ barcode =>
            modify (fun st => set_scanData (scanData st ++ [barcode]) st) ;;;
            modify (fun st => set_totalScans (totalScans st + 1) st))
         barcodes tt.

(** [deleteResult(id)]; [confirmed] is what the [confirm] dialog returns. *)
Definition deleteResult (confirmed : bool) (id : jsstring) : M unit :=
  if confirmed then
    modify (fun st =>
      set_scanData
        (filter (fun item => negb (strict_eq_str (get_prop item "id") id)) (scanData st))
        st)
  else ret tt.

(** ** Record factory *)

(** Decimal rendering of an integral number, as a template literal does. *)
Definition toDecimal (z : Z) : jsstring :=
  lit (NilZero.string_of_int (Z.to_int z)).

(** [n.toString(36)] for an integral number: digits 0-9 then a-z. *)
Definition digit36 (d : Z) : codeunit :=
  Z.to_N (if d <? 10 then 48 + d else 87 + d).

Fixpoint toString36_digits (fuel : nat) (z : Z) (acc : jsstring) : jsstring :=
  match fuel with
  | O => acc
  | S fuel' =>
      let acc' := digit36 (z mod 36) :: acc in
      if z <? 36 then acc' else toString36_digits fuel' (z / 36) acc'
  end.

Definition toString36 (z : Z) : jsstring :=
  if z <? 0 then 45%N :: toString36_digits (S (Z.to_nat (Z.log2 (- z)))) (- z) []
  else toString36_digits (S (Z.to_nat (Z.log2 z))) z [].

Definition getSessionId : M jsstring :=
  sid <- gets sessionId ;;
  match sid with
  | Some (c :: s) => ret (c :: s)
  | _ =>
      user <- gets currentUser ;;
      now <- dateNow ;;
      let fresh := (match user with Some u => u | None => lit "null" end)
                     ++ lit "_" ++ toDecimal now in
      modify (set_sessionId (Some fresh)) ;;;
      ret fresh
  end.

Definition generateId : M jsstring :=
  now <- dateNow ;;
  suffix <- (fun st => (randomSuffix st (reads st), set_reads (S (reads st)) st)) ;;
  ret (toString36 now ++ suffix).

(** One element of [results], as [scanImageData] builds it; [region] is
    present only for a detection found in a sub-region of the frame. *)
Record Detection := mkDetection {
  det_text : jsstring;
  det_format : jsval;
  det_points : jsval;
  det_region : option jsval;
  det_timestamp : Z
}.

Definition detection_object (d : Detection) : jsobj :=
  [("text", VStr (det_text d)); ("format", det_format d); ("points", det_points d)]%string
  ++ match det_region d with Some r => [("region"%string, r)] | None => [] end
  ++ [("timestamp"%string, VNum (Num (det_timestamp d)))].

Definition info_object (b : BarcodeInfo) : jsobj :=
  [("type", VStr (lit (type b))); ("isValid", VBool (isValid b));
   ("vendor", VStr (lit (vendor b))); ("checksum", VBool (checksum b))]%string.

Definition user_value (u : option jsstring) : jsval :=
  match u with Some s => VStr s | None => VNull end.

(** The body of the loop of [processDetectedBarcodes]; a duplicate
    takes the [continue] branch. [playErrorSound], [showDuplicateWarning]
    and [playSuccessSound] drive the audio and the status line only. *)
Definition processOne (validBarcodes : list jsobj) (result : Detection) : M (list jsobj) :=
  let barcodeInfo := analyzeBarcodeType (det_text result) in
  if isValid barcodeInfo then
    dup <- isDuplicate (det_text result) ;;
    if dup then
      modify (fun st => set_duplicateCount (duplicateCount st + 1) st) ;;;
      ret validBarcodes
    else
      user <- gets currentUser ;;
      sid <- getSessionId ;;
      id <- generateId ;;
      ret (validBarcodes ++
           [set_prop "id" (VStr id)
              (set_prop "sessionId" (VStr sid)
                 (set_prop "user" (user_value user)
                    (spread (spread [] (detection_object result))
                            (info_object barcodeInfo))))])
  else ret validBarcodes.

(** After [addScanResults] the method redraws the overlays, the live
    list and the statistics and may start a sync; these read the records
    and change none of the modelled fields. *)
Definition processDetectedBarcodes (results : list Detection) : M unit :=
  validBarcodes <- for_of processOne results [] ;;
  if (0 <? List.length validBarcodes)%nat then addScanResults validBarcodes
  else ret tt.

(** ** Persistence *)

(** What [loadScanData] observes of [localStorage]: no usable item
    ([getItem] gives null or the empty string), an item on which
    [JSON.parse] throws, or an item that parses to the array that
    [saveScanData] serialised. *)
Inductive SavedData :=
| NoItem
| Unparsable
| Items (records : list jsobj).

Definition loadScanData (saved : SavedData) : M unit :=
  match saved with
  | Items records => modify (set_scanData records)
  | NoItem => modify (set_scanData [])
  | Unparsable => modify (set_scanData [])      (* the catch block *)
  end.

(** ** Running examples *)

Definition scanner0 : Scanner :=
  mkScanner None [] 0 0 [("duplicateHandling", VStr (lit "block"))]%string None
            (fun k => 1700000000000 + Z.of_nat k) (fun _ => lit "k3x9") 0.

Definition upc_detection : Detection :=
  mkDetection (lit "036000291452") (VNum (Num 14)) (VRef 1) None 1700000000000.


(** * The specification's wording

    Definitions that follow the words of the specification, to be
    compared with the functions above. *)

Module Spec.

(** A decimal digit is one of the ten characters 0 to 9. *)
Definition decimal_digit (c : codeunit) : bool := mem c (lit "0123456789").

(** A hexadecimal digit, in either case. *)
Definition hex_digit (c : codeunit) : bool := mem c (lit "0123456789ABCDEFabcdef").

(** "Exactly [n] characters, each of the class". *)
Definition has_shape (cls : codeunit -> bool) (n : nat) (t : jsstring) : bool :=
  (List.length t =? n)%nat && forallb cls t.

Definition digit_string (n : nat) (t : jsstring) : Prop :=
  List.length t = n /\ Forall (fun c => decimal_digit c = true) t.

(** The digit at a 0-indexed position, as a number. *)
Definition digit_at (t : jsstring) (i : nat) : Z := Z.of_N (nth i t 48%N) - 48.

Definition Zsum (l : list Z) : Z := fold_right Z.add 0 l.

(** "Double the digit at every odd position; if doubling exceeds 9,
    subtract 9." *)
Definition luhn_adjust (i : nat) (d : Z) : Z :=
  if Nat.odd i then (if 9 <? 2 * d then 2 * d - 9 else 2 * d) else d.

(** "Sum all 14 adjusted digits." *)
Definition imei_sum (t : jsstring) : Z :=
  Zsum (List.map (fun i => luhn_adjust i (digit_at t i)) (seq 0 14)).

(** "Check digit = (10 - (sum mod 10)) mod 10." *)
Definition check_digit (sum : Z) : Z := (10 - sum mod 10) mod 10.

Definition imei_checksum (t : jsstring) : bool :=
  check_digit (imei_sum t) =? digit_at t 14.

(** "Even positions count x1 and odd positions count x3." *)
Definition weight (i : nat) (d : Z) : Z := if Nat.even i then d else 3 * d.

Definition weighted_sum (n : nat) (t : jsstring) : Z :=
  Zsum (List.map (fun i => weight i (digit_at t i)) (seq 0 n)).

Definition upca_checksum (t : jsstring) : bool :=
  check_digit (weighted_sum 11 t) =? digit_at t 11.

Definition ean13_checksum (t : jsstring) : bool :=
  check_digit (weighted_sum 12 t) =? digit_at t 12.

(** The two-digit-prefix map, default Unknown. *)
Definition vendor_of (t : jsstring) : string :=
  let prefix := firstn 2 t in
  if jsstring_eqb prefix (lit "01") then "Apple"
  else if jsstring_eqb prefix (lit "35") then "Samsung"
  else if jsstring_eqb prefix (lit "86") then "Huawei"
  else if jsstring_eqb prefix (lit "99") then "Xiaomi"
  else "Unknown".

(** The shape rules in their priority order, first match wins. *)
Definition classify_trimmed (t : jsstring) : BarcodeInfo :=
  if has_shape decimal_digit 15 t then mkInfo "IMEI" true (vendor_of t) (imei_checksum t)
  else if has_shape hex_digit 14 t then mkInfo "MEID" true "Unknown" true
  else if has_shape decimal_digit 12 t then mkInfo "UPC-A" true "Product" (upca_checksum t)
  else if has_shape decimal_digit 8 t then mkInfo "UPC-E" true "Product" true
  else if has_shape decimal_digit 13 t then mkInfo "EAN-13" true "Product" (ean13_checksum t)
  else mkInfo "Unknown" false "Unknown" false.

(** [t] is [raw] without its leading and trailing whitespace. *)
Definition trimmed_of (raw t : jsstring) : Prop :=
  (exists pre post,
      raw = pre ++ t ++ post
      /\ Forall (fun c => isWhiteSpace c = true) pre
      /\ Forall (fun c => isWhiteSpace c = true) post)
  /\ (forall c t', t = c :: t' -> isWhiteSpace c = false)
  /\ (forall c t', t = t' ++ [c] -> isWhiteSpace c = false).

(** The fields a scan record must carry. *)
Definition required_fields : list string :=
  ["id"; "text"; "type"; "vendor"; "checksum"; "user"; "sessionId";
   "timestamp"; "format"]%string.

Definition well_formed_record (o : jsobj) : bool :=
  forallb (has_prop o) required_fields.

End Spec.

(** * Auxiliary definitions for the statements *)

(** Some record of the log has exactly this text. *)
Definition text_in_log (text : jsstring) (log : list jsobj) : Prop :=
  exists item, In item log /\ get_prop item "text" = VStr text.

(** The [text] property of a record. *)
Definition text_of (o : jsobj) : jsval := get_prop o "text".

(** A detection is accepted when its trimmed text matches a shape and
    the duplicate guard, asked with the text as decoded, lets it pass. *)
Definition accepted (st : Scanner) (d : Detection) : bool :=
  isValid (analyzeBarcodeType (det_text d))
  && negb (result (isDuplicate (det_text d)) st).

Definition same_log (st st' : Scanner) : Prop :=
  scanData st' = scanData st /\ settings st' = settings st.

(** Sample records and states. *)

Definition upc_record : jsobj :=
  [("text", VStr (lit "036000291452")); ("format", VNum (Num 14)); ("points", VRef 1);
   ("timestamp", VNum (Num 1700000000000)); ("type", VStr (lit "UPC-A"));
   ("isValid", VBool true); ("vendor", VStr (lit "Product")); ("checksum", VBool false);
   ("user", VNull); ("sessionId", VStr (lit "null_1700000000000"));
   ("id", VStr (lit "loyw3v29k3x9"))]%string.

Definition with_policy (policy : jsval) (log : list jsobj) : Scanner :=
  mkScanner None log 0 0 [("duplicateHandling", policy)]%string None
            (fun k => 1700000000000 + Z.of_nat k) (fun _ => lit "k3x9") 0.

Definition partial_record : jsobj := [("id", VStr (lit "loyw3v2a0001"))]%string.

Definition ean_record : jsobj :=
  [("text", VStr (lit "4006381333931")); ("format", VNum (Num 7)); ("points", VRef 2);
   ("timestamp", VNum (Num 1700000000500)); ("type", VStr (lit "EAN-13"));
   ("isValid", VBool true); ("vendor", VStr (lit "Product")); ("checksum", VBool true);
   ("user", VNull); ("sessionId", VStr (lit "null_1700000000000"));
   ("id", VStr (lit "loyw3vg5k3x9"))]%string.

(** * Further operations and notions *)

(** A weighting [g] of the digit positions, summed over the first [n]
    positions, has its check digit at position [n]. *)
Definition weighted_check (g : nat -> Z -> Z) (n : nat) (t : jsstring) : Prop :=
  Spec.check_digit (Spec.Zsum (List.map (fun i => g i (Spec.digit_at t i)) (seq 0 n)))
  = Spec.digit_at t n.

(** The object literal that [processDetectedBarcodes] pushes for an
    accepted detection. *)
Definition built_record (d : Detection) (user : jsval) (sid id : jsstring) : jsobj :=
  set_prop "id" (VStr id)
    (set_prop "sessionId" (VStr sid)
       (set_prop "user" user
          (spread (spread [] (detection_object d))
                  (info_object (analyzeBarcodeType (det_text d)))))).

(** A detection that matches a shape but is turned away as a duplicate. *)
Definition blocked (st : Scanner) (d : Detection) : bool :=
  isValid (analyzeBarcodeType (det_text d))
  && result (isDuplicate (det_text d)) st.

(** The fields that the scanning loop leaves alone. *)
Definition same_frame (st st' : Scanner) : Prop :=
  scanData st' = scanData st /\ settings st' = settings st
  /\ currentUser st' = currentUser st /\ totalScans st' = totalScans st
  /\ clock st' = clock st /\ randomSuffix st' = randomSuffix st.

(** The session id is as it was and the clock untouched, or it has been
    issued in the meantime. *)
Definition session_kept (st st' : Scanner) : Prop :=
  (sessionId st' = sessionId st /\ reads st' = reads st)
  \/ sessionId st' = Some (result getSessionId st).

(** Conversion to boolean, as a condition does it. *)
Definition truthy (v : jsval) : bool :=
  match v with
  | VUndefined | VNull => false
  | VBool b => b
  | VNum NaN => false
  | VNum (Num z) => negb (Z.eqb z 0)
  | VStr s => negb (Nat.eqb (List.length s) 0)
  | VRef _ => true
  end.

(** [updateStatistics]: the number shown as valid scans,
    [scanData.filter(item => item.checksum).length]. *)
Definition validScans (log : list jsobj) : nat :=
  List.length (filter (fun item => truthy (get_prop item "checksum")) log).

(** [r] is the record built for [d] in a batch started in state [st]. *)
Definition record_for (st : Scanner) (d : Detection) (r : jsobj) : Prop :=
  exists id, r = built_record d (user_value (currentUser st)) (result getSessionId st) id.

(** The record [r] carries the detection [d], its classification, the
    current user and the session id, under the property names the rest
    of the program reads. *)
Definition mirrors (st : Scanner) (d : Detection) (r : jsobj) : Prop :=
  let info := analyzeBarcodeType (det_text d) in
  get_prop r "text" = VStr (det_text d)
  /\ get_prop r "format" = det_format d
  /\ get_prop r "timestamp" = VNum (Num (det_timestamp d))
  /\ get_prop r "type" = VStr (lit (type info))
  /\ get_prop r "isValid" = VBool true
  /\ get_prop r "vendor" = VStr (lit (vendor info))
  /\ get_prop r "checksum" = VBool (checksum info)
  /\ get_prop r "user" = user_value (currentUser st)
  /\ get_prop r "sessionId" = VStr (result getSessionId st)
  /\ (exists id, get_prop r "id" = VStr id)
  /\ Spec.well_formed_record r = true.

(** [clearSession] also resets [errorCount], a counter that the
    scanning methods above do not use; the page state pairs it with the
    scanner. *)
Record Page := mkPage {
  scanner : Scanner;
  errorCount : Z
}.

(** [clearSession()]; [confirmed] is what the [confirm] dialog returns.
    The calls that follow the four assignments save and redraw. *)
Definition clearSession (confirmed : bool) (pg : Page) : Page :=
  if confirmed then
    mkPage (set_totalScans 0 (set_duplicateCount 0 (set_scanData [] (scanner pg)))) 0
  else pg.

(** The object literal [defaultSettings] of [loadSettings]. *)
Definition defaultSettings : jsobj :=
  [("scanSpeed", VNum (Num 100)); ("duplicateHandling", VStr (lit "block"));
   ("soundEnabled", VBool true); ("vibrationEnabled", VBool true);
   ("googleSheetsUrl", VStr []); ("sheetName", VStr (lit "scanning manu"));
   ("autoSync", VBool true); ("syncInterval", VStr (lit "realtime"));
   ("debugMode", VBool false); ("cameraResolution", VStr (lit "720p"));
   ("maxStorageSize", VNum (Num 50)); ("sessionTimeout", VNum (Num 60));
   ("autoSave", VNum (Num 25))]%string.

(** What [loadSettings] observes of [localStorage]: no usable item, an
    item on which [JSON.parse] throws, or an item that parses to an
    object, the form in which [saveSettings] writes it. *)
Inductive SavedSettings :=
| NoSettings
| UnparsableSettings
| SettingsObject (fields : jsobj).

Definition loadSettings (saved : SavedSettings) : jsobj :=
  match saved with
  | SettingsObject fields => spread (spread [] defaultSettings) fields
  | NoSettings => defaultSettings
  | UnparsableSettings => defaultSettings      (* the catch block *)
  end.

(** [s.startsWith(prefix)] *)
Fixpoint startsWith (prefix s : jsstring) : bool :=
  match prefix, s with
  | [], _ => true
  | p :: prefix', c :: s' => N.eqb p c && startsWith prefix' s'
  | _ :: _, [] => false
  end.

(** The two routed fields of the row that [syncToGoogleSheets] builds
    for a record:
    [item.type === 'IMEI' || item.type === 'MEID' ? item.text : '']. *)
Definition sync_imei_meid (item : jsobj) : jsval :=
  if strict_eq_str (get_prop item "type") (lit "IMEI")
     || strict_eq_str (get_prop item "type") (lit "MEID")
  then get_prop item "text" else VStr [].

(** [item.type.startsWith('UPC') || item.type.startsWith('EAN') ?
    item.text : '']; [None] is the TypeError raised when [item.type] is
    not a string. *)
Definition sync_upc (item : jsobj) : option jsval :=
  match get_prop item "type" with
  | VStr t =>
      Some (if startsWith (lit "UPC") t || startsWith (lit "EAN") t
            then get_prop item "text" else VStr [])
  | _ => None
  end.

(** The record [r] of the detection [d] goes to the column of its type:
    an IMEI or MEID has its text under [imei_meid] and the empty string
    under [upc], a UPC-A, UPC-E or EAN-13 the empty string under
    [imei_meid] and its text under [upc]; the text is not empty. *)
Definition routed_by_type (d : Detection) (r : jsobj) : Prop :=
  let ty := type (analyzeBarcodeType (det_text d)) in
  get_prop r "type" = VStr (lit ty)
  /\ get_prop r "text" = VStr (det_text d)
  /\ det_text d <> []
  /\ (((ty = "IMEI" \/ ty = "MEID")%string
       /\ sync_imei_meid r = VStr (det_text d)
       /\ sync_upc r = Some (VStr []))
      \/ ((ty = "UPC-A" \/ ty = "UPC-E" \/ ty = "EAN-13")%string
          /\ sync_imei_meid r = VStr []
          /\ sync_upc r = Some (VStr (det_text d)))).

(** * Properties *)

(** ** Sample runs *)

Example analyze_upc_spaces : analyzeBarcodeType (lit " 036000291452 ")
  = mkInfo "UPC-A" true "Product" false.
Proof. vm_compute. reflexivity. Qed.

Example toString36_35 : toString36 1295 = lit "zz".
Proof. vm_compute. reflexivity. Qed.

Example process_twice :
  List.map (fun o => get_prop o "text")
    (scanData (after (processDetectedBarcodes [upc_detection] ;;;
                      processDetectedBarcodes [upc_detection]) scanner0))
  = [VStr (lit "036000291452")]
  /\ duplicateCount (after (processDetectedBarcodes [upc_detection] ;;;
                            processDetectedBarcodes [upc_detection]) scanner0) = 1.
Proof. vm_compute. split; reflexivity. Qed.


(** ** Character classes and patterns *)

Lemma jsstring_eqb_eq (a b : jsstring) : jsstring_eqb a b = true <-> a = b.
Proof.
  revert b; induction a as [|x a IH]; intros [|y b]; simpl;
    try (split; [discriminate | congruence]); try tauto.
  rewrite andb_true_iff, N.eqb_eq, IH. split.
  - intros [-> ->]; reflexivity.
  - intros H; injection H; auto.
Qed.

Lemma jsstring_eqb_sym (a b : jsstring) : jsstring_eqb a b = jsstring_eqb b a.
Proof.
  revert b; induction a as [|x a IH]; intros [|y b]; simpl; auto.
  now rewrite IH, N.eqb_sym.
Qed.

Lemma below_128 (f : codeunit -> bool) :
  forallb f (List.map N.of_nat (seq 0 128)) = true ->
  forall c, (c < 128)%N -> f c = true.
Proof.
  intros H c Hc. rewrite forallb_forall in H. apply H.
  rewrite in_map_iff. exists (N.to_nat c). split.
  - apply N2Nat.id.
  - apply in_seq. lia.
Qed.

Lemma mem_above (c : codeunit) (cs : list codeunit) :
  Forall (fun x => (x < c)%N) cs -> mem c cs = false.
Proof.
  unfold mem. induction 1 as [|x cs Hx _ IH]; simpl; auto.
  rewrite IH, orb_false_r. apply N.eqb_neq. lia.
Qed.

Lemma class_digit_spec (c : codeunit) : class_digit c = Spec.decimal_digit c.
Proof.
  destruct (N.ltb_spec c 128) as [Hc|Hc].
  - apply (below_128 (fun c => Bool.eqb (class_digit c) (Spec.decimal_digit c))) in Hc.
    + now apply eqb_prop.
    + vm_compute. reflexivity.
  - unfold Spec.decimal_digit. rewrite mem_above.
    + unfold class_digit, between. apply andb_false_iff. right. apply N.leb_gt. lia.
    + vm_compute (lit _). repeat (constructor; [lia|]). constructor.
Qed.

Lemma class_hex_i_spec (c : codeunit) : class_hex_i c = Spec.hex_digit c.
Proof.
  destruct (N.ltb_spec c 128) as [Hc|Hc].
  - apply (below_128 (fun c => Bool.eqb (class_hex_i c) (Spec.hex_digit c))) in Hc.
    + now apply eqb_prop.
    + vm_compute. reflexivity.
  - unfold Spec.hex_digit. rewrite mem_above.
    + unfold class_hex_i, between.
      repeat (apply orb_false_iff; split); apply andb_false_iff; right;
        apply N.leb_gt; lia.
    + vm_compute (lit _). repeat (constructor; [lia|]). constructor.
Qed.

Lemma digit_not_space (c : codeunit) : class_digit c = true -> isWhiteSpace c = false.
Proof.
  intros Hd.
  assert (Hc : (c < 128)%N).
  { unfold class_digit, between in Hd.
    rewrite andb_true_iff, !N.leb_le in Hd. lia. }
  apply (below_128 (fun c => negb (class_digit c) || negb (isWhiteSpace c))) in Hc.
  - rewrite Hd in Hc. simpl in Hc. now destruct (isWhiteSpace c).
  - vm_compute. reflexivity.
Qed.

(** [/^C{n}$/] holds exactly of the strings of [n] code units of [C]. *)
Lemma test_exactly_shape (cls cls' : codeunit -> bool) (n : nat) (s : jsstring) :
  (forall c, cls c = cls' c) ->
  test_exactly cls n s = Spec.has_shape cls' n s.
Proof.
  intros Hcls. unfold Spec.has_shape. revert s.
  induction n as [|n IH]; intros [|c s]; simpl; auto.
  rewrite IH, Hcls. now rewrite andb_comm, <- andb_assoc, (andb_comm (forallb _ _)).
Qed.

Lemma has_shape_digits (n : nat) (t : jsstring) :
  Spec.has_shape Spec.decimal_digit n t = true <-> Spec.digit_string n t.
Proof.
  unfold Spec.has_shape, Spec.digit_string.
  now rewrite andb_true_iff, Nat.eqb_eq, forallb_forall, Forall_forall.
Qed.

(** ** Trimming *)

Lemma dropWhile_split {A} (p : A -> bool) (l : list A) :
  exists pre, l = pre ++ dropWhile p l /\ Forall (fun x => p x = true) pre.
Proof.
  induction l as [|x l (pre & Hl & Hpre)]; simpl.
  - exists []. auto.
  - destruct (p x) eqn:Hx.
    + exists (x :: pre). split; [simpl; congruence | auto].
    + exists []. auto.
Qed.

Lemma dropWhile_head {A} (p : A -> bool) (l : list A) (x : A) (l' : list A) :
  dropWhile p l = x :: l' -> p x = false.
Proof.
  induction l as [|y l IH]; simpl; [discriminate|].
  destruct (p y) eqn:Hy; auto. intros H; injection H as -> _. exact Hy.
Qed.

Lemma dropWhile_id {A} (p : A -> bool) (l : list A) :
  (forall x l', l = x :: l' -> p x = false) -> dropWhile p l = l.
Proof.
  destruct l as [|x l]; simpl; auto. intros H. now rewrite (H x l eq_refl).
Qed.

Lemma trimEnd_split (s : jsstring) :
  exists post, s = trimEnd s ++ post /\ Forall (fun c => isWhiteSpace c = true) post.
Proof.
  unfold trimEnd. destruct (dropWhile_split isWhiteSpace (rev s)) as (pre & Hs & Hpre).
  exists (rev pre). split.
  - rewrite <- rev_app_distr, <- Hs. symmetry. apply rev_involutive.
  - apply Forall_rev. exact Hpre.
Qed.

Lemma trimEnd_last (s t' : jsstring) (c : codeunit) :
  trimEnd s = t' ++ [c] -> isWhiteSpace c = false.
Proof.
  unfold trimEnd. intros H. apply (f_equal (@rev _)) in H.
  rewrite rev_involutive, rev_app_distr in H. simpl in H.
  exact (dropWhile_head _ _ _ _ H).
Qed.

Lemma trim_spec (raw : jsstring) : Spec.trimmed_of raw (trim raw).
Proof.
  unfold trim, trimStart.
  destruct (dropWhile_split isWhiteSpace raw) as (pre & Hraw & Hpre).
  destruct (trimEnd_split (dropWhile isWhiteSpace raw)) as (post & Hmid & Hpost).
  split; [|split].
  - exists pre, post. repeat split; auto. now rewrite <- Hmid.
  - intros c t' Ht. rewrite Ht in Hmid. simpl in Hmid.
    exact (dropWhile_head _ _ _ _ Hmid).
  - intros c t'. apply trimEnd_last.
Qed.

Lemma trim_id (s : jsstring) :
  Forall (fun c => isWhiteSpace c = false) s -> trim s = s.
Proof.
  intros Hs. unfold trim, trimStart, trimEnd.
  rewrite (dropWhile_id _ s).
  - rewrite dropWhile_id; [apply rev_involutive|].
    intros x l' Hx. rewrite Forall_forall in Hs. apply Hs.
    apply in_rev. rewrite Hx. now left.
  - intros x l' ->. now inversion Hs.
Qed.

Lemma trim_digit_string (n : nat) (s : jsstring) :
  Spec.digit_string n s -> trim s = s.
Proof.
  intros [_ Hs]. apply trim_id. eapply Forall_impl; [|exact Hs].
  intros c Hc. apply digit_not_space. now rewrite class_digit_spec.
Qed.

(** ** Checksum loops *)

Lemma mod2_odd (i : nat) : Nat.eqb (i mod 2) 1 = Nat.odd i.
Proof. now rewrite <- Nat.bit0_eqb, Nat.bit0_odd. Qed.

Lemma mod2_even (i : nat) : Nat.eqb (i mod 2) 0 = Nat.even i.
Proof.
  rewrite <- Nat.negb_odd, <- mod2_odd.
  pose proof (Nat.mod_upper_bound i 2 ltac:(discriminate)) as H.
  destruct (i mod 2)%nat as [|[|k]]; simpl; auto. lia.
Qed.

Lemma digit_value_range (c : codeunit) :
  class_digit c = true -> 0 <= Z.of_N c - 48 <= 9.
Proof.
  unfold class_digit, between. rewrite andb_true_iff, !N.leb_le. lia.
Qed.

Section DigitLoops.

Variable s : jsstring.
Hypothesis s_digits : Forall (fun c => class_digit c = true) s.

Lemma digit_at_char (i : nat) :
  (i < List.length s)%nat ->
  exists c, charAt s i = Some c /\ class_digit c = true
            /\ Spec.digit_at s i = Z.of_N c - 48.
Proof.
  intros Hi. exists (nth i s 48%N). unfold charAt, Spec.digit_at.
  repeat split.
  - now apply nth_error_nth'.
  - rewrite Forall_forall in s_digits. apply s_digits. now apply nth_In.
Qed.

Lemma parseInt_digit (i : nat) :
  (i < List.length s)%nat -> parseInt (charAt s i) = Num (Spec.digit_at s i).
Proof.
  intros Hi. destruct (digit_at_char i Hi) as (c & -> & Hc & ->).
  simpl. now rewrite Hc.
Qed.

Lemma digit_at_range (i : nat) :
  (i < List.length s)%nat -> 0 <= Spec.digit_at s i <= 9.
Proof.
  intros Hi. destruct (digit_at_char i Hi) as (c & _ & Hc & ->).
  now apply digit_value_range.
Qed.

(** A summing loop over digit positions computes the sum of the
    per-position contributions. *)
Lemma sum_loop (body : jsnum -> nat -> jsnum) (g : nat -> Z -> Z) :
  (forall acc i, (i < List.length s)%nat ->
      body (Num acc) i = Num (acc + g i (Spec.digit_at s i))) ->
  forall n, (n <= List.length s)%nat ->
    for_loop n body (Num 0)
    = Num (Spec.Zsum (List.map (fun i => g i (Spec.digit_at s i)) (seq 0 n))).
Proof.
  intros Hbody n Hn. unfold for_loop.
  assert (Hgen : forall l acc, (forall i, In i l -> (i < List.length s)%nat) ->
            fold_left body l (Num acc)
            = Num (acc + Spec.Zsum (List.map (fun i => g i (Spec.digit_at s i)) l))).
  { induction l as [|i l IH]; intros acc Hl; simpl.
    - now rewrite Z.add_0_r.
    - rewrite Hbody by (apply Hl; now left).
      rewrite IH by (intros j Hj; apply Hl; now right).
      f_equal. lia. }
  rewrite Hgen; [reflexivity|].
  intros i Hi. apply in_seq in Hi. lia.
Qed.

Lemma sum_nonneg (g : nat -> Z -> Z) (n : nat) :
  (forall i d, 0 <= d <= 9 -> 0 <= g i d) ->
  (n <= List.length s)%nat ->
  0 <= Spec.Zsum (List.map (fun i => g i (Spec.digit_at s i)) (seq 0 n)).
Proof.
  intros Hg Hn.
  assert (Hgen : forall l, (forall i, In i l -> (i < List.length s)%nat) ->
            0 <= Spec.Zsum (List.map (fun i => g i (Spec.digit_at s i)) l)).
  { induction l as [|i l IH]; intros Hl; simpl; [lia|].
    specialize (IH (fun j Hj => Hl j (or_intror Hj))).
    specialize (Hg i _ (digit_at_range i (Hl i (or_introl eq_refl)))). lia. }
  apply Hgen. intros i Hi. apply in_seq in Hi. lia.
Qed.

(** The last two lines of each validator. *)
Lemma check_digit_compare (sum : Z) (i : nat) :
  0 <= sum -> (i < List.length s)%nat ->
  num_strict_eq
    (num_rem (num_sub (Num 10) (num_rem (Num sum) (Num 10))) (Num 10))
    (parseInt (charAt s i))
  = (Spec.check_digit sum =? Spec.digit_at s i).
Proof.
  intros Hsum Hi. rewrite parseInt_digit by exact Hi.
  cbv beta iota delta [num_rem num_sub num_strict_eq].
  change (10 =? 0) with false. cbv iota.
  unfold Spec.check_digit.
  rewrite (Z.rem_mod_nonneg sum 10) by lia.
  pose proof (Z.mod_pos_bound sum 10 ltac:(lia)).
  now rewrite Z.rem_mod_nonneg by lia.
Qed.

End DigitLoops.

Lemma luhn_adjust_nonneg (i : nat) (d : Z) : 0 <= d <= 9 -> 0 <= Spec.luhn_adjust i d.
Proof.
  intros Hd. unfold Spec.luhn_adjust.
  destruct (Nat.odd i); [destruct (Z.ltb_spec 9 (2 * d))|]; lia.
Qed.

Lemma weight_nonneg (i : nat) (d : Z) : 0 <= d <= 9 -> 0 <= Spec.weight i d.
Proof. intros Hd. unfold Spec.weight. destruct (Nat.even i); lia. Qed.

Lemma digit_string_class (n : nat) (s : jsstring) :
  Spec.digit_string n s -> Forall (fun c => class_digit c = true) s.
Proof.
  intros [_ Hs]. eapply Forall_impl; [|exact Hs].
  intros c Hc. now rewrite class_digit_spec.
Qed.

Lemma validateIMEIChecksum_spec (s : jsstring) :
  Spec.digit_string 15 s -> validateIMEIChecksum s = Spec.imei_checksum s.
Proof.
  intros Hs. pose proof (digit_string_class _ _ Hs) as Hd. destruct Hs as [Hlen _].
  unfold validateIMEIChecksum, Spec.imei_checksum, Spec.imei_sum.
  rewrite (sum_loop s _ Spec.luhn_adjust).
  - apply (check_digit_compare s Hd); [|lia].
    apply (sum_nonneg s Hd); [apply luhn_adjust_nonneg | lia].
  - intros acc i Hi. cbv zeta. rewrite (parseInt_digit s Hd i Hi), mod2_odd.
    unfold Spec.luhn_adjust. destruct (Nat.odd i);
      cbv beta iota delta [num_mul num_gt num_sub num_add]; [|reflexivity].
    rewrite Z.gtb_ltb, (Z.mul_comm 2).
    now destruct (9 <? Spec.digit_at s i * 2).
  - lia.
Qed.

Lemma weighted_loop (s : jsstring) (n : nat) :
  Forall (fun c => class_digit c = true) s -> (n < List.length s)%nat ->
  num_strict_eq
    (num_rem (num_sub (Num 10) (num_rem
       (for_loop n (fun sum i =>
          let digit := parseInt (charAt s i) in
          num_add sum (if Nat.eqb (i mod 2) 0 then digit else num_mul digit (Num 3)))
          (Num 0)) (Num 10))) (Num 10))
    (parseInt (charAt s n))
  = (Spec.check_digit (Spec.weighted_sum n s) =? Spec.digit_at s n).
Proof.
  intros Hd Hn. unfold Spec.weighted_sum.
  rewrite (sum_loop s _ Spec.weight).
  - apply (check_digit_compare s Hd); [|lia].
    apply (sum_nonneg s Hd); [apply weight_nonneg | lia].
  - intros acc i Hi. cbv zeta. rewrite (parseInt_digit s Hd i Hi), mod2_even.
    unfold Spec.weight. destruct (Nat.even i);
      cbv beta iota delta [num_mul num_add]; [reflexivity|].
    now rewrite (Z.mul_comm 3).
  - lia.
Qed.

Lemma validateUPCChecksum_spec (s : jsstring) :
  Spec.digit_string 12 s -> validateUPCChecksum s = Spec.upca_checksum s.
Proof.
  intros Hs. pose proof (digit_string_class _ _ Hs) as Hd. destruct Hs as [Hlen _].
  apply (weighted_loop s 11 Hd). lia.
Qed.

Lemma validateEAN13Checksum_spec (s : jsstring) :
  Spec.digit_string 13 s -> validateEAN13Checksum s = Spec.ean13_checksum s.
Proof.
  intros Hs. pose proof (digit_string_class _ _ Hs) as Hd. destruct Hs as [Hlen _].
  apply (weighted_loop s 12 Hd). lia.
Qed.

(** ** The classifier against the shape rules *)

Lemma getIMEIVendor_spec (t : jsstring) : getIMEIVendor t = Spec.vendor_of t.
Proof.
  unfold getIMEIVendor, Spec.vendor_of, substring0.
  rewrite firstn_firstn. change (Nat.min 2 8) with 2%nat.
  cbn [vendors vendors_get].
  rewrite !(jsstring_eqb_sym (lit _) (firstn 2 t)).
  repeat match goal with |- context [jsstring_eqb (firstn 2 t) ?k] =>
    destruct (jsstring_eqb (firstn 2 t) k); [reflexivity|] end.
  reflexivity.
Qed.

Lemma analyze_classify (raw : jsstring) :
  analyzeBarcodeType raw = Spec.classify_trimmed (trim raw).
Proof.
  unfold analyzeBarcodeType, Spec.classify_trimmed. cbv zeta.
  generalize (trim raw) as t. intros t.
  rewrite !(test_exactly_shape class_digit Spec.decimal_digit) by apply class_digit_spec.
  rewrite (test_exactly_shape class_hex_i Spec.hex_digit) by apply class_hex_i_spec.
  destruct (Spec.has_shape Spec.decimal_digit 15 t) eqn:H15.
  { apply has_shape_digits in H15.
    now rewrite getIMEIVendor_spec, validateIMEIChecksum_spec. }
  destruct (Spec.has_shape Spec.hex_digit 14 t); [reflexivity|].
  destruct (Spec.has_shape Spec.decimal_digit 12 t) eqn:H12.
  { apply has_shape_digits in H12. now rewrite validateUPCChecksum_spec. }
  destruct (Spec.has_shape Spec.decimal_digit 8 t); [reflexivity|].
  destruct (Spec.has_shape Spec.decimal_digit 13 t) eqn:H13.
  { apply has_shape_digits in H13. now rewrite validateEAN13Checksum_spec. }
  reflexivity.
Qed.

Lemma has_shape_length (cls : codeunit -> bool) (n : nat) (t : jsstring) :
  List.length t <> n -> Spec.has_shape cls n t = false.
Proof.
  intros H. unfold Spec.has_shape. apply andb_false_iff. left. now apply Nat.eqb_neq.
Qed.

(** C1. [analyzeBarcodeType] works on the input with its leading and
    trailing whitespace removed, and tests it against the shape rules in
    the order 15 decimal digits (IMEI, vendor from the two-digit prefix
    map, IMEI checksum), 14 hexadecimal characters in either case (MEID,
    vendor Unknown, checksum true), 12 decimal digits (UPC-A, vendor
    Product, UPC-A checksum), 8 decimal digits (UPC-E, vendor Product,
    checksum true), 13 decimal digits (EAN-13, vendor Product, EAN-13
    checksum), anything else Unknown with isValid false and checksum
    false; a matched shape has isValid true whatever its checksum. *)
Theorem C1_classify_shape_rules (raw : jsstring) :
  Spec.trimmed_of raw (trim raw)
  /\ analyzeBarcodeType raw = Spec.classify_trimmed (trim raw).
Proof.
  split; [apply trim_spec | apply analyze_classify].
Qed.

Lemma analyze_imei (s : jsstring) :
  Spec.digit_string 15 s ->
  analyzeBarcodeType s = mkInfo "IMEI" true (Spec.vendor_of s) (Spec.imei_checksum s).
Proof.
  intros Hs. rewrite analyze_classify, (trim_digit_string 15 s Hs).
  unfold Spec.classify_trimmed.
  now rewrite (proj2 (has_shape_digits 15 s) Hs).
Qed.

Lemma analyze_upca (s : jsstring) :
  Spec.digit_string 12 s ->
  analyzeBarcodeType s = mkInfo "UPC-A" true "Product" (Spec.upca_checksum s).
Proof.
  intros Hs. rewrite analyze_classify, (trim_digit_string 12 s Hs).
  unfold Spec.classify_trimmed.
  rewrite (proj2 (has_shape_digits 12 s) Hs). destruct Hs as [Hlen _].
  now rewrite !has_shape_length by (rewrite Hlen; discriminate).
Qed.

Lemma analyze_ean13 (s : jsstring) :
  Spec.digit_string 13 s ->
  analyzeBarcodeType s = mkInfo "EAN-13" true "Product" (Spec.ean13_checksum s).
Proof.
  intros Hs. rewrite analyze_classify, (trim_digit_string 13 s Hs).
  unfold Spec.classify_trimmed.
  rewrite (proj2 (has_shape_digits 13 s) Hs). destruct Hs as [Hlen _].
  now rewrite !has_shape_length by (rewrite Hlen; discriminate).
Qed.

(** C2. For every string of exactly 15 decimal digits the classifier
    answers IMEI, and the checksum it reports is true exactly when
    (10 - (sum mod 10)) mod 10 equals the digit at position 14, the sum
    being taken over positions 0 to 13 with every odd-position digit
    doubled and 9 subtracted from a doubled value above 9. *)
Theorem C2_imei_checksum_luhn (s : jsstring) :
  Spec.digit_string 15 s ->
  type (analyzeBarcodeType s) = "IMEI"%string
  /\ (checksum (analyzeBarcodeType s) = true
      <-> Spec.check_digit (Spec.imei_sum s) = Spec.digit_at s 14).
Proof.
  intros Hs. rewrite (analyze_imei s Hs). simpl. split; [reflexivity|].
  unfold Spec.imei_checksum. apply Z.eqb_eq.
Qed.

Lemma C2_imei_checksum_luhn_witness :
  Spec.digit_string 15 (lit "490154203237518")
  /\ type (analyzeBarcodeType (lit "490154203237518")) = "IMEI"%string
  /\ (checksum (analyzeBarcodeType (lit "490154203237518")) = true
      <-> Spec.check_digit (Spec.imei_sum (lit "490154203237518"))
          = Spec.digit_at (lit "490154203237518") 14).
Proof.
  assert (H : Spec.digit_string 15 (lit "490154203237518"))
    by (split; [reflexivity | repeat constructor]).
  split; [exact H|].
  exact (C2_imei_checksum_luhn (lit "490154203237518") H).
Defined.

(** C3. For every string of exactly 12 decimal digits the UPC-A
    checksum is reported valid exactly when (10 - (S mod 10)) mod 10
    equals the digit at position 11, S being the sum over positions 0 to
    10 of the digit times 1 at even positions and times 3 at odd ones;
    for every string of exactly 13 decimal digits the EAN-13 checksum
    uses the same weights over positions 0 to 11 and compares with the
    digit at position 12. *)
Theorem C3_upca_ean13_weighted_checksums :
  (forall s, Spec.digit_string 12 s ->
     type (analyzeBarcodeType s) = "UPC-A"%string
     /\ (checksum (analyzeBarcodeType s) = true
         <-> Spec.check_digit (Spec.weighted_sum 11 s) = Spec.digit_at s 11))
  /\ (forall s, Spec.digit_string 13 s ->
     type (analyzeBarcodeType s) = "EAN-13"%string
     /\ (checksum (analyzeBarcodeType s) = true
         <-> Spec.check_digit (Spec.weighted_sum 12 s) = Spec.digit_at s 12)).
Proof.
  split; intros s Hs.
  - rewrite (analyze_upca s Hs). simpl. split; [reflexivity|].
    unfold Spec.upca_checksum. apply Z.eqb_eq.
  - rewrite (analyze_ean13 s Hs). simpl. split; [reflexivity|].
    unfold Spec.ean13_checksum. apply Z.eqb_eq.
Qed.

Lemma C3_upca_ean13_weighted_checksums_witness :
  (Spec.digit_string 12 (lit "036000291452")
   /\ type (analyzeBarcodeType (lit "036000291452")) = "UPC-A"%string
   /\ (checksum (analyzeBarcodeType (lit "036000291452")) = true
       <-> Spec.check_digit (Spec.weighted_sum 11 (lit "036000291452"))
           = Spec.digit_at (lit "036000291452") 11))
  /\ (Spec.digit_string 13 (lit "4006381333931")
   /\ type (analyzeBarcodeType (lit "4006381333931")) = "EAN-13"%string
   /\ (checksum (analyzeBarcodeType (lit "4006381333931")) = true
       <-> Spec.check_digit (Spec.weighted_sum 12 (lit "4006381333931"))
           = Spec.digit_at (lit "4006381333931") 12)).
Proof.
  split.
  - assert (H : Spec.digit_string 12 (lit "036000291452"))
      by (split; [reflexivity | repeat constructor]).
    split; [exact H|].
    exact (proj1 C3_upca_ean13_weighted_checksums (lit "036000291452") H).
  - assert (H : Spec.digit_string 13 (lit "4006381333931"))
      by (split; [reflexivity | repeat constructor]).
    split; [exact H|].
    exact (proj2 C3_upca_ean13_weighted_checksums (lit "4006381333931") H).
Defined.

(** C5. On the UPC-A test vector 036000291452 the classifier answers
    UPC-A and reports the checksum as false: the loop weights the even
    0-indexed positions by 1 and the odd ones by 3, which gives the sum
    62 and the check digit 8, not the final digit 2. *)
Theorem C5_upca_vector_checksum_false :
  analyzeBarcodeType (lit "036000291452") = mkInfo "UPC-A" true "Product" false
  /\ Spec.weighted_sum 11 (lit "036000291452") = 62
  /\ Spec.check_digit 62 = 8
  /\ Spec.digit_at (lit "036000291452") 11 = 2.
Proof. vm_compute. repeat split. Qed.

(** C6 as stated fails: on 490154203237518 the classifier does not
    report the checksum as false. *)
Lemma C6_imei_vector_counterexample :
  ~ (type (analyzeBarcodeType (lit "490154203237518")) = "IMEI"%string
     /\ checksum (analyzeBarcodeType (lit "490154203237518")) = false).
Proof. vm_compute. intros [_ H]. discriminate H. Qed.

(** C6, amended. On 490154203237518 the classifier answers IMEI with
    the checksum reported true: the doubling-rule sum over positions 0
    to 13 is 52, the check digit is 8, and the final digit is 8. *)
Theorem C6_imei_vector_checksum_true :
  type (analyzeBarcodeType (lit "490154203237518")) = "IMEI"%string
  /\ checksum (analyzeBarcodeType (lit "490154203237518")) = true
  /\ Spec.imei_sum (lit "490154203237518") = 52
  /\ Spec.check_digit 52 = 8
  /\ Spec.digit_at (lit "490154203237518") 14 = 8.
Proof. vm_compute. repeat split. Qed.

(** ** Duplicate guard *)

Lemma strict_eq_str_eq (v : jsval) (s : jsstring) :
  strict_eq_str v s = true <-> v = VStr s.
Proof.
  destruct v; simpl; try (split; [discriminate | congruence]).
  rewrite jsstring_eqb_eq. split; congruence.
Qed.

Lemma strict_eq_str_neq (v : jsval) (s : jsstring) :
  strict_eq_str v s = false <-> v <> VStr s.
Proof.
  rewrite <- strict_eq_str_eq. destruct (strict_eq_str v s); split; congruence.
Qed.

Lemma existsb_text (text : jsstring) (log : list jsobj) :
  existsb (fun item => strict_eq_str (get_prop item "text") text) log = true
  <-> text_in_log text log.
Proof.
  rewrite existsb_exists. unfold text_in_log.
  split; intros (item & Hin & H); exists item; split; auto; now apply strict_eq_str_eq.
Qed.

Lemma isDuplicate_run (text : jsstring) (st : Scanner) :
  isDuplicate text st
  = (if strict_eq_str (get_prop (settings st) "duplicateHandling") (lit "allow")
     then false
     else existsb (fun item => strict_eq_str (get_prop item "text") text) (scanData st),
     st).
Proof.
  unfold isDuplicate, bind, gets, ret.
  now destruct (strict_eq_str _ (lit "allow")).
Qed.

(** C4. With the policy "allow" [isDuplicate] answers false; with the
    policy "block" it answers true exactly when some record of the log
    has a text equal, code unit for code unit, to the candidate; and the
    call leaves the scanner, the log included, as it was. *)
Theorem C4_isDuplicate_allow_block (st : Scanner) (text : jsstring) :
  (get_prop (settings st) "duplicateHandling" = VStr (lit "allow") ->
     result (isDuplicate text) st = false)
  /\ (get_prop (settings st) "duplicateHandling" = VStr (lit "block") ->
     (result (isDuplicate text) st = true <-> text_in_log text (scanData st)))
  /\ after (isDuplicate text) st = st.
Proof.
  unfold result, after. rewrite isDuplicate_run. cbn [fst snd].
  split; [|split].
  - intros ->. reflexivity.
  - intros ->. apply existsb_text.
  - reflexivity.
Qed.

Lemma C4_isDuplicate_allow_block_witness :
  result (isDuplicate (lit "036000291452"))
         (with_policy (VStr (lit "allow")) [upc_record]) = false
  /\ (result (isDuplicate (lit "036000291452"))
             (with_policy (VStr (lit "block")) [upc_record]) = true
      <-> text_in_log (lit "036000291452") [upc_record]).
Proof.
  split.
  - apply (proj1 (C4_isDuplicate_allow_block
                    (with_policy (VStr (lit "allow")) [upc_record]) (lit "036000291452"))).
    reflexivity.
  - apply (proj1 (proj2 (C4_isDuplicate_allow_block
                    (with_policy (VStr (lit "block")) [upc_record]) (lit "036000291452")))).
    reflexivity.
Defined.

(** C10. Whatever the [duplicateHandling] setting holds, a string
    outside the declared values or a value of another type, as long as
    it is not exactly the string "allow" [isDuplicate] blocks: it
    answers true exactly when some record of the log has a text strictly
    equal to the candidate. Only the exact string "allow" switches the
    check off. *)
Theorem C10_isDuplicate_blocks_unless_allow (st : Scanner) (text : jsstring) :
  (get_prop (settings st) "duplicateHandling" <> VStr (lit "allow") ->
     (result (isDuplicate text) st = true <-> text_in_log text (scanData st)))
  /\ (get_prop (settings st) "duplicateHandling" = VStr (lit "allow") ->
     result (isDuplicate text) st = false).
Proof.
  unfold result. rewrite isDuplicate_run. cbn [fst]. split.
  - intros Hne. apply strict_eq_str_neq in Hne. rewrite Hne. apply existsb_text.
  - intros ->. reflexivity.
Qed.

Lemma C10_isDuplicate_blocks_unless_allow_witness :
  (result (isDuplicate (lit "036000291452"))
          (with_policy (VStr (lit "ALLOW")) [upc_record]) = true
   <-> text_in_log (lit "036000291452") [upc_record])
  /\ (result (isDuplicate (lit "036000291452"))
             (with_policy VUndefined [upc_record]) = true
      <-> text_in_log (lit "036000291452") [upc_record])
  /\ result (isDuplicate (lit "036000291452"))
            (with_policy (VStr (lit "allow")) [upc_record]) = false.
Proof.
  split; [|split].
  - apply (proj1 (C10_isDuplicate_blocks_unless_allow
                    (with_policy (VStr (lit "ALLOW")) [upc_record]) (lit "036000291452"))).
    simpl. discriminate.
  - apply (proj1 (C10_isDuplicate_blocks_unless_allow
                    (with_policy VUndefined [upc_record]) (lit "036000291452"))).
    simpl. discriminate.
  - apply (proj2 (C10_isDuplicate_blocks_unless_allow
                    (with_policy (VStr (lit "allow")) [upc_record]) (lit "036000291452"))).
    reflexivity.
Defined.

(** ** Scan log: append and delete *)

Lemma bind_run {A B} (c : M A) (k : A -> M B) (st : Scanner) :
  bind c k st = k (result c st) (after c st).
Proof. unfold bind, result, after. now destruct (c st). Qed.

Lemma addScanResults_log (barcodes : list jsobj) (st : Scanner) :
  scanData (after (addScanResults barcodes) st) = scanData st ++ barcodes.
Proof.
  unfold addScanResults, after. revert st.
  induction barcodes as [|b barcodes IH]; intros st; simpl.
  - now rewrite app_nil_r.
  - unfold bind, modify at 1 2. simpl.
    rewrite IH. simpl. now rewrite <- app_assoc.
Qed.

Lemma filter_id {A} (p : A -> bool) (l : list A) :
  (forall x, In x l -> p x = true) -> filter p l = l.
Proof.
  induction l as [|x l IH]; simpl; intros H; auto.
  rewrite (H x (or_introl eq_refl)), IH; auto.
Qed.

(** C7. For every scanner state and every record whose id no record of
    the log carries, appending the record and then deleting by that
    record's id leaves the log equal to what it was before the two
    calls, record for record, field for field and in the same order. *)
Theorem C7_append_then_confirmed_delete (st : Scanner) (r : jsobj) (id : jsstring) :
  get_prop r "id" = VStr id ->
  (forall o, In o (scanData st) -> get_prop o "id" <> VStr id) ->
  scanData (after (addScanResults [r] ;;; deleteResult true id) st) = scanData st.
Proof.
  intros Hid Hfresh. unfold after at 1. rewrite bind_run.
  unfold deleteResult, modify. cbn [snd].
  unfold set_scanData. cbn [scanData]. rewrite addScanResults_log.
  rewrite filter_app. cbn [filter].
  rewrite Hid. rewrite (proj2 (strict_eq_str_eq (VStr id) id) eq_refl). cbn [negb].
  rewrite app_nil_r. apply filter_id.
  intros o Ho. apply negb_true_iff, strict_eq_str_neq. now apply Hfresh.
Qed.

Lemma C7_append_then_confirmed_delete_witness :
  scanData (after (addScanResults [ean_record] ;;;
                   deleteResult true (lit "loyw3vg5k3x9"))
                  (with_policy (VStr (lit "block")) [upc_record]))
  = [upc_record].
Proof.
  apply (C7_append_then_confirmed_delete
           (with_policy (VStr (lit "block")) [upc_record]) ean_record
           (lit "loyw3vg5k3x9")).
  - reflexivity.
  - simpl. intros o [<- | []]. vm_compute. discriminate.
Defined.

(** ** Record factory: what is stored as [text] *)

Lemma same_log_refl (st : Scanner) : same_log st st.
Proof. split; reflexivity. Qed.

Lemma same_log_trans (a b c : Scanner) : same_log a b -> same_log b c -> same_log a c.
Proof. unfold same_log. intros [-> ->] [-> ->]. auto. Qed.

Lemma accepted_same_log (st st' : Scanner) (d : Detection) :
  same_log st st' -> accepted st' d = accepted st d.
Proof.
  intros [Hlog Hset]. unfold accepted, result.
  now rewrite !isDuplicate_run, Hlog, Hset.
Qed.

Lemma record_text (d : Detection) (b : BarcodeInfo) (user sid id : jsval) :
  text_of (set_prop "id" id
            (set_prop "sessionId" sid
              (set_prop "user" user
                (spread (spread [] (detection_object d)) (info_object b)))))
  = VStr (det_text d).
Proof.
  unfold detection_object. destruct (det_region d); reflexivity.
Qed.

Lemma processOne_step (acc : list jsobj) (d : Detection) (st : Scanner) :
  same_log st (after (processOne acc d) st)
  /\ exists new,
       result (processOne acc d) st = acc ++ new
       /\ List.map text_of new
          = List.map (fun d => VStr (det_text d)) (filter (accepted st) [d]).
Proof.
  unfold processOne, accepted, after, result. cbn [filter].
  destruct (isValid (analyzeBarcodeType (det_text d))); cbn [andb].
  2:{ split; [apply same_log_refl|]. exists []. now rewrite app_nil_r. }
  unfold bind. rewrite isDuplicate_run. cbv beta iota. cbn [fst].
  destruct (if strict_eq_str _ (lit "allow") then false else _); cbn [negb].
  - split; [split; reflexivity|]. exists []. now rewrite app_nil_r.
  - unfold getSessionId, generateId, dateNow, bind, gets, modify, ret.
    destruct (sessionId st) as [[|c s]|]; cbn [fst snd];
      (split; [split; reflexivity|]);
      eexists [_]; (split; [reflexivity|]); cbn [List.map];
      now rewrite record_text.
Qed.

Lemma process_loop (results : list Detection) :
  forall (acc : list jsobj) (st : Scanner),
    same_log st (after (for_of processOne results acc) st)
    /\ exists new,
         result (for_of processOne results acc) st = acc ++ new
         /\ List.map text_of new
            = List.map (fun d => VStr (det_text d)) (filter (accepted st) results).
Proof.
  induction results as [|d results IH]; intros acc st.
  - split; [apply same_log_refl|]. exists []. split; [|reflexivity].
    unfold result. simpl. now rewrite app_nil_r.
  - destruct (processOne_step acc d st) as (Hsame & new1 & Hacc & Htext).
    destruct (IH (result (processOne acc d) st) (after (processOne acc d) st))
      as (Hsame' & new2 & Hacc' & Htext').
    unfold after, result in *. cbn [for_of]. rewrite bind_run.
    unfold after, result. split.
    + eapply same_log_trans; eassumption.
    + exists (new1 ++ new2). split.
      * rewrite Hacc', Hacc. now rewrite app_assoc.
      * rewrite map_app, Htext, Htext'.
        rewrite (filter_ext _ _ (fun x => accepted_same_log _ _ x Hsame)).
        change (d :: results) with ([d] ++ results).
        now rewrite filter_app, map_app.
Qed.

(** C8 as stated fails: a detection whose decoded text carries a
    leading blank is accepted, and the record appended to the log keeps
    the blank. *)
Lemma C8_stored_text_untrimmed_counterexample :
  List.map text_of
    (scanData (after (processDetectedBarcodes
                        [mkDetection (lit " 12345678") (VNum (Num 9)) (VRef 1) None
                                     1700000000000])
                     scanner0))
  = [VStr (lit " 12345678")]
  /\ VStr (lit " 12345678") <> VStr (trim (lit " 12345678")).
Proof. vm_compute. split; [reflexivity | discriminate]. Qed.

(** C8, amended. [processDetectedBarcodes] appends one record per
    accepted detection, in order, and each such record stores in [text]
    the decoder's text exactly as received; the trimmed value serves the
    classification only. *)
Theorem C8_stored_text_is_decoder_text (st : Scanner) (results : list Detection) :
  exists added,
    scanData (after (processDetectedBarcodes results) st) = scanData st ++ added
    /\ List.map text_of added
       = List.map (fun d => VStr (det_text d)) (filter (accepted st) results).
Proof.
  destruct (process_loop results [] st) as ([Hlog _] & new & Hacc & Htext).
  exists new. split; [|exact Htext].
  unfold processDetectedBarcodes, after at 1. rewrite bind_run, Hacc. cbn [app].
  destruct new as [|r new]; cbn [List.length Nat.ltb Nat.leb].
  - unfold ret. cbn [snd]. now rewrite Hlog, app_nil_r.
  - fold (after (addScanResults (r :: new)) (after (for_of processOne results []) st)).
    now rewrite addScanResults_log, Hlog.
Qed.

(** ** Loading the persisted log *)

(** C9 as stated fails: a persisted record that lacks required fields
    is neither rejected nor skipped; it is in the log after the load. *)
Lemma C9_load_keeps_malformed_counterexample :
  Spec.well_formed_record partial_record = false
  /\ In partial_record
        (scanData (after (loadScanData (Items [partial_record; upc_record])) scanner0)).
Proof. split; [reflexivity | left; reflexivity]. Qed.

(** C9, amended. [loadScanData] validates no record: when the stored
    item parses, the log becomes the parsed sequence as it is, records
    with missing fields included and in the stored order; when there is
    no stored item the log becomes empty; and when parsing throws, the
    error is caught and the whole load is given up, the log becoming
    empty. *)
Theorem C9_load_takes_parsed_sequence (st : Scanner) :
  (forall records, scanData (after (loadScanData (Items records)) st) = records)
  /\ scanData (after (loadScanData NoItem) st) = []
  /\ scanData (after (loadScanData Unparsable) st) = [].
Proof. repeat split. Qed.

(** * Further properties of the classifier *)

(** A classification is valid exactly when a shape matched; the type
    then fixes the length of the trimmed text (15, 14, 12, 8 or 13 code
    units), MEID and UPC-E always report a true checksum, and an
    unmatched text gets the single Unknown answer. *)
Theorem classification_shape_table (raw : jsstring) :
  let info := analyzeBarcodeType raw in
  let n := List.length (trim raw) in
  (isValid info = true
   /\ ((type info = "IMEI"%string /\ n = 15%nat)
       \/ (type info = "MEID"%string /\ n = 14%nat
           /\ vendor info = "Unknown"%string /\ checksum info = true)
       \/ (type info = "UPC-A"%string /\ n = 12%nat /\ vendor info = "Product"%string)
       \/ (type info = "UPC-E"%string /\ n = 8%nat
           /\ vendor info = "Product"%string /\ checksum info = true)
       \/ (type info = "EAN-13"%string /\ n = 13%nat /\ vendor info = "Product"%string)))
  \/ info = mkInfo "Unknown" false "Unknown" false.
Proof.
  cbv zeta. rewrite analyze_classify. unfold Spec.classify_trimmed.
  generalize (trim raw) as t. intros t.
  assert (Hlen : forall cls k, Spec.has_shape cls k t = true -> List.length t = k).
  { intros cls k H. unfold Spec.has_shape in H.
    apply andb_true_iff in H. now apply Nat.eqb_eq. }
  destruct (Spec.has_shape Spec.decimal_digit 15 t) eqn:H15;
    [left; split; [reflexivity|]; left; split; [reflexivity | exact (Hlen _ _ H15)]|].
  destruct (Spec.has_shape Spec.hex_digit 14 t) eqn:H14;
    [left; split; [reflexivity|]; right; left; repeat split; exact (Hlen _ _ H14)|].
  destruct (Spec.has_shape Spec.decimal_digit 12 t) eqn:H12;
    [left; split; [reflexivity|]; right; right; left; repeat split; exact (Hlen _ _ H12)|].
  destruct (Spec.has_shape Spec.decimal_digit 8 t) eqn:H8;
    [left; split; [reflexivity|]; right; right; right; left; repeat split;
     exact (Hlen _ _ H8)|].
  destruct (Spec.has_shape Spec.decimal_digit 13 t) eqn:H13;
    [left; split; [reflexivity|]; right; right; right; right; repeat split;
     exact (Hlen _ _ H13)|].
  right. reflexivity.
Qed.

(** A text whose trimmed length is none of 8, 12, 13, 14 and 15, the
    empty text and a text of whitespace only among them, is answered
    Unknown. *)
Theorem other_lengths_are_unknown (raw : jsstring) :
  ~ In (List.length (trim raw)) [8; 12; 13; 14; 15]%nat ->
  analyzeBarcodeType raw = mkInfo "Unknown" false "Unknown" false.
Proof.
  intros Hn. rewrite analyze_classify. unfold Spec.classify_trimmed.
  rewrite !has_shape_length by (intros E; apply Hn; rewrite E; simpl; tauto).
  reflexivity.
Qed.

Lemma other_lengths_are_unknown_witness :
  analyzeBarcodeType (lit "  ") = mkInfo "Unknown" false "Unknown" false
  /\ analyzeBarcodeType (lit "12345") = mkInfo "Unknown" false "Unknown" false.
Proof.
  split.
  - apply (other_lengths_are_unknown (lit "  ")). vm_compute. intuition discriminate.
  - apply (other_lengths_are_unknown (lit "12345")). vm_compute. intuition discriminate.
Defined.

Lemma dropWhile_app_all {A} (p : A -> bool) (pre l : list A) :
  Forall (fun x => p x = true) pre -> dropWhile p (pre ++ l) = dropWhile p l.
Proof.
  induction 1 as [|x pre Hx _ IH]; simpl; auto. now rewrite Hx.
Qed.

Lemma dropWhile_all {A} (p : A -> bool) (l : list A) :
  Forall (fun x => p x = true) l -> dropWhile p l = [].
Proof.
  intros H. rewrite <- (app_nil_r l). now rewrite dropWhile_app_all.
Qed.

Lemma dropWhile_app_keep {A} (p : A -> bool) (l post : list A) :
  dropWhile p l <> [] -> dropWhile p (l ++ post) = dropWhile p l ++ post.
Proof.
  induction l as [|x l IH]; simpl; [congruence|].
  destruct (p x); auto.
Qed.

Lemma trimEnd_app_all (s post : jsstring) :
  Forall (fun c => isWhiteSpace c = true) post -> trimEnd (s ++ post) = trimEnd s.
Proof.
  intros H. unfold trimEnd. rewrite rev_app_distr, dropWhile_app_all; auto.
  now apply Forall_rev.
Qed.

(** Whitespace around a text does not change how it is classified. *)
Theorem classification_ignores_surrounding_whitespace (pre s post : jsstring) :
  Forall (fun c => isWhiteSpace c = true) pre ->
  Forall (fun c => isWhiteSpace c = true) post ->
  trim (pre ++ s ++ post) = trim s
  /\ analyzeBarcodeType (pre ++ s ++ post) = analyzeBarcodeType s.
Proof.
  intros Hpre Hpost.
  assert (Htrim : trim (pre ++ s ++ post) = trim s).
  { unfold trim, trimStart. rewrite dropWhile_app_all by exact Hpre.
    destruct (dropWhile isWhiteSpace s) as [|c u] eqn:Hs.
    - destruct (dropWhile_split isWhiteSpace s) as (ws & Hsplit & Hws).
      rewrite Hs, app_nil_r in Hsplit. subst ws.
      rewrite dropWhile_all; [reflexivity|].
      apply Forall_app. split; assumption.
    - rewrite dropWhile_app_keep by (rewrite Hs; discriminate).
      rewrite Hs. now apply trimEnd_app_all. }
  split; [exact Htrim|].
  now rewrite !analyze_classify, Htrim.
Qed.

Lemma classification_ignores_surrounding_whitespace_witness :
  trim (lit "  " ++ lit "036000291452" ++ [10%N]) = trim (lit "036000291452")
  /\ analyzeBarcodeType (lit "  " ++ lit "036000291452" ++ [10%N])
     = analyzeBarcodeType (lit "036000291452").
Proof.
  apply (classification_ignores_surrounding_whitespace
           (lit "  ") (lit "036000291452") [10%N]).
  - repeat constructor.
  - repeat constructor.
Defined.

Lemma shape_types (raw : jsstring) :
  type (analyzeBarcodeType raw) = "IMEI"%string
  \/ type (analyzeBarcodeType raw) = "MEID"%string
  \/ type (analyzeBarcodeType raw) = "UPC-A"%string
  \/ type (analyzeBarcodeType raw) = "UPC-E"%string
  \/ type (analyzeBarcodeType raw) = "EAN-13"%string
  \/ analyzeBarcodeType raw = mkInfo "Unknown" false "Unknown" false.
Proof.
  rewrite analyze_classify. unfold Spec.classify_trimmed.
  repeat match goal with
         | |- context [if ?b then _ else _] => destruct b; [cbn; tauto|]
         end.
  tauto.
Qed.

(** ** What the check digits detect *)

Lemma Zsum_map_ext (f g : nat -> Z) (l : list nat) :
  (forall j, In j l -> f j = g j) ->
  Spec.Zsum (List.map f l) = Spec.Zsum (List.map g l).
Proof.
  induction l as [|j l IH]; intros H; simpl; auto.
  rewrite (H j (or_introl eq_refl)), IH; auto.
  intros k Hk. apply H. now right.
Qed.

Lemma Zsum_map_single (f g : nat -> Z) (i : nat) (l : list nat) :
  NoDup l -> In i l -> (forall j, In j l -> j <> i -> f j = g j) ->
  Spec.Zsum (List.map f l) - Spec.Zsum (List.map g l) = f i - g i.
Proof.
  induction 1 as [|j l Hj Hnd IH]; intros Hi Hext; [destruct Hi|].
  simpl. destruct Hi as [->|Hi].
  - rewrite (Zsum_map_ext f g l); [lia|].
    intros k Hk. apply Hext; [now right|]. intros ->. contradiction.
  - rewrite (Hext j (or_introl eq_refl)) by (intros ->; contradiction).
    specialize (IH Hi (fun k Hk => Hext k (or_intror Hk))). lia.
Qed.

Lemma check_digit_range (sum : Z) : 0 <= Spec.check_digit sum <= 9.
Proof.
  unfold Spec.check_digit.
  pose proof (Z.mod_pos_bound (10 - sum mod 10) 10 ltac:(lia)). lia.
Qed.

Lemma check_digit_inj (x y : Z) :
  Spec.check_digit x = Spec.check_digit y -> (x - y) mod 10 = 0.
Proof.
  unfold Spec.check_digit. intros H.
  pose proof (Z.mod_pos_bound x 10 ltac:(lia)) as Hx.
  pose proof (Z.mod_pos_bound y 10 ltac:(lia)) as Hy.
  assert (Hxy : x mod 10 = y mod 10).
  { destruct (Z.eq_dec (x mod 10) 0) as [Ex|Ex], (Z.eq_dec (y mod 10) 0) as [Ey|Ey].
    - congruence.
    - rewrite Ex in H. change ((10 - 0) mod 10) with 0 in H.
      rewrite Z.mod_small in H by lia. lia.
    - rewrite Ey in H. change ((10 - 0) mod 10) with 0 in H.
      rewrite Z.mod_small in H by lia. lia.
    - rewrite (Z.mod_small (10 - x mod 10)), (Z.mod_small (10 - y mod 10)) in H by lia.
      lia. }
  rewrite Zminus_mod, Hxy, Z.sub_diag. reflexivity.
Qed.

Lemma digit_at_app_left (pre post : jsstring) (j : nat) :
  (j < List.length pre)%nat -> Spec.digit_at (pre ++ post) j = Spec.digit_at pre j.
Proof. intros H. unfold Spec.digit_at. now rewrite app_nth1. Qed.

Lemma digit_at_app_mid (pre post : jsstring) (c : codeunit) :
  Spec.digit_at (pre ++ c :: post) (List.length pre) = Z.of_N c - 48.
Proof. unfold Spec.digit_at. now rewrite nth_middle. Qed.

Lemma digit_at_app_right (pre post : jsstring) (a b : codeunit) (j : nat) :
  j <> List.length pre ->
  Spec.digit_at (pre ++ a :: post) j = Spec.digit_at (pre ++ b :: post) j.
Proof.
  intros H. unfold Spec.digit_at.
  destruct (Nat.lt_ge_cases j (List.length pre)) as [Hlt|Hge].
  - now rewrite !app_nth1.
  - rewrite !app_nth2 by exact Hge.
    destruct (j - List.length pre)%nat as [|k] eqn:Hk; [lia | reflexivity].
Qed.

Section OneDigitChanged.

Variable g : nat -> Z -> Z.
Variable n : nat.
Hypothesis g_separates : forall i d d',
  0 <= d <= 9 -> 0 <= d' <= 9 -> (g i d - g i d') mod 10 = 0 -> d = d'.

Lemma one_digit_changed (pre post : jsstring) (a b : codeunit) :
  List.length (pre ++ a :: post) = S n ->
  class_digit a = true -> class_digit b = true ->
  weighted_check g n (pre ++ a :: post) -> weighted_check g n (pre ++ b :: post) ->
  a = b.
Proof.
  intros Hlen Ha Hb Hva Hvb. unfold weighted_check in *.
  apply digit_value_range in Ha, Hb.
  rewrite length_app in Hlen. simpl in Hlen.
  destruct (Nat.eq_dec (List.length pre) n) as [Hn|Hn].
  - (* the check digit itself *)
    rewrite <- Hn in Hva at 2. rewrite <- Hn in Hvb at 2.
    rewrite digit_at_app_mid in Hva, Hvb.
    rewrite (Zsum_map_ext _ (fun i => g i (Spec.digit_at (pre ++ b :: post) i))) in Hva.
    + lia.
    + intros j Hj. apply in_seq in Hj. f_equal. apply digit_at_app_right. lia.
  - (* one of the summed digits *)
    rewrite (digit_at_app_right pre post a b n) in Hva by auto.
    rewrite <- Hvb in Hva. apply check_digit_inj in Hva.
    rewrite (Zsum_map_single _ _ (List.length pre)) in Hva.
    + rewrite !digit_at_app_mid in Hva.
      apply g_separates in Hva; lia.
    + apply seq_NoDup.
    + apply in_seq. lia.
    + intros j _ Hj. f_equal. now apply digit_at_app_right.
Qed.

End OneDigitChanged.

Lemma small_multiple_of_ten (x : Z) : -9 <= x <= 9 -> x mod 10 = 0 -> x = 0.
Proof.
  intros Hx H. destruct (Z_lt_le_dec x 0) as [Hneg|Hpos].
  - rewrite <- (Z.mod_add x 1 10) in H by lia.
    rewrite Z.mod_small in H by lia. lia.
  - rewrite Z.mod_small in H by lia. exact H.
Qed.

Lemma luhn_adjust_separates (i : nat) (d d' : Z) :
  0 <= d <= 9 -> 0 <= d' <= 9 ->
  (Spec.luhn_adjust i d - Spec.luhn_adjust i d') mod 10 = 0 -> d = d'.
Proof.
  intros Hd Hd'. unfold Spec.luhn_adjust.
  destruct (Nat.odd i).
  - destruct (Z.ltb_spec 9 (2 * d)), (Z.ltb_spec 9 (2 * d'));
      intros Hm; apply small_multiple_of_ten in Hm; lia.
  - intros Hm. apply small_multiple_of_ten in Hm; lia.
Qed.

Lemma weight_separates (i : nat) (d d' : Z) :
  0 <= d <= 9 -> 0 <= d' <= 9 ->
  (Spec.weight i d - Spec.weight i d') mod 10 = 0 -> d = d'.
Proof.
  intros Hd Hd'. unfold Spec.weight.
  destruct (Nat.even i).
  - intros H. apply small_multiple_of_ten in H; lia.
  - intros H.
    assert (Hk : exists k, d - d' = k /\ -9 <= k <= 9) by (eexists; split; [reflexivity | lia]).
    destruct Hk as (k & Hk & Hr).
    replace (3 * d - 3 * d') with (3 * k) in H by lia.
    assert (k = 0); [|lia].
    assert (Hcases : k = -9 \/ k = -8 \/ k = -7 \/ k = -6 \/ k = -5 \/ k = -4 \/ k = -3
                     \/ k = -2 \/ k = -1 \/ k = 0 \/ k = 1 \/ k = 2 \/ k = 3 \/ k = 4
                     \/ k = 5 \/ k = 6 \/ k = 7 \/ k = 8 \/ k = 9) by lia.
    repeat (destruct Hcases as [->|Hcases];
            [first [reflexivity | vm_compute in H; discriminate H]|]).
    rewrite Hcases in H. vm_compute in H. discriminate H.
Qed.

Section CheckDigitCompletion.

Variable g : nat -> Z -> Z.
Variable n : nat.

Lemma weighted_sum_prefix (p rest : jsstring) :
  List.length p = n ->
  Spec.Zsum (List.map (fun i => g i (Spec.digit_at (p ++ rest) i)) (seq 0 n))
  = Spec.Zsum (List.map (fun i => g i (Spec.digit_at p i)) (seq 0 n)).
Proof.
  intros Hlen. apply Zsum_map_ext. intros j Hj. apply in_seq in Hj.
  f_equal. apply digit_at_app_left. lia.
Qed.

(** The digit that completes the prefix [p]. *)
Lemma completing_digit (p : jsstring) :
  List.length p = n ->
  exists d, class_digit d = true /\ weighted_check g n (p ++ [d]).
Proof.
  intros Hlen.
  pose proof (check_digit_range
    (Spec.Zsum (List.map (fun i => g i (Spec.digit_at p i)) (seq 0 n)))) as Hr.
  remember (Z.to_N (48 + Spec.check_digit
    (Spec.Zsum (List.map (fun i => g i (Spec.digit_at p i)) (seq 0 n))))) as z eqn:Hz.
  exists z. split.
  - unfold class_digit, between. apply andb_true_iff. rewrite !N.leb_le. lia.
  - unfold weighted_check. rewrite weighted_sum_prefix by exact Hlen.
    transitivity (Z.of_N z - 48).
    + rewrite Hz, Z2N.id by lia. lia.
    + symmetry. rewrite <- Hlen. apply digit_at_app_mid.
Qed.

End CheckDigitCompletion.

Lemma imei_checksum_weighted (s : jsstring) :
  Spec.digit_string 15 s ->
  (validateIMEIChecksum s = true <-> weighted_check Spec.luhn_adjust 14 s).
Proof.
  intros Hs. rewrite (validateIMEIChecksum_spec s Hs).
  unfold Spec.imei_checksum, Spec.imei_sum, weighted_check. apply Z.eqb_eq.
Qed.

Lemma upca_checksum_weighted (s : jsstring) :
  Spec.digit_string 12 s ->
  (validateUPCChecksum s = true <-> weighted_check Spec.weight 11 s).
Proof.
  intros Hs. rewrite (validateUPCChecksum_spec s Hs).
  unfold Spec.upca_checksum, Spec.weighted_sum, weighted_check. apply Z.eqb_eq.
Qed.

Lemma ean13_checksum_weighted (s : jsstring) :
  Spec.digit_string 13 s ->
  (validateEAN13Checksum s = true <-> weighted_check Spec.weight 12 s).
Proof.
  intros Hs. rewrite (validateEAN13Checksum_spec s Hs).
  unfold Spec.ean13_checksum, Spec.weighted_sum, weighted_check. apply Z.eqb_eq.
Qed.

Lemma digit_string_app (n : nat) (p : jsstring) (d : codeunit) :
  Spec.digit_string n p -> class_digit d = true -> Spec.digit_string (S n) (p ++ [d]).
Proof.
  intros [Hlen Hp] Hd. split.
  - rewrite length_app. simpl. lia.
  - apply Forall_app. split; [exact Hp|]. constructor; [|constructor].
    now rewrite <- class_digit_spec.
Qed.

Lemma digit_string_middle (n : nat) (pre post : jsstring) (a : codeunit) :
  Spec.digit_string n (pre ++ a :: post) -> class_digit a = true.
Proof.
  intros [_ H]. apply Forall_app in H. destruct H as [_ H].
  inversion H; subst. now rewrite class_digit_spec.
Qed.

(** Every 14-digit prefix is completed to a string with a valid IMEI
    checksum by exactly one final digit. *)
Theorem imei_check_digit_exists_unique (p : jsstring) :
  Spec.digit_string 14 p ->
  exists d, class_digit d = true
    /\ validateIMEIChecksum (p ++ [d]) = true
    /\ forall d', class_digit d' = true ->
         validateIMEIChecksum (p ++ [d']) = true -> d' = d.
Proof.
  intros Hp. destruct (completing_digit Spec.luhn_adjust 14 p (proj1 Hp)) as (d & Hd & Hv).
  exists d. split; [exact Hd|]. split.
  - apply imei_checksum_weighted; [now apply digit_string_app | exact Hv].
  - intros d' Hd' Hv'.
    apply imei_checksum_weighted in Hv'; [|now apply digit_string_app].
    apply (one_digit_changed Spec.luhn_adjust 14 luhn_adjust_separates p [] d' d); auto.
    rewrite length_app. simpl. destruct Hp as [-> _]. reflexivity.
Qed.

Lemma imei_check_digit_exists_unique_witness :
  exists d, class_digit d = true
    /\ validateIMEIChecksum (lit "49015420323751" ++ [d]) = true
    /\ forall d', class_digit d' = true ->
         validateIMEIChecksum (lit "49015420323751" ++ [d']) = true -> d' = d.
Proof.
  apply (imei_check_digit_exists_unique (lit "49015420323751")).
  split; [reflexivity | repeat constructor].
Defined.

(** A 15-digit string with a valid IMEI checksum stops being valid when
    any one of its digits, the check digit included, is replaced by a
    different digit. *)
Theorem imei_checksum_detects_one_wrong_digit (pre post : jsstring) (a b : codeunit) :
  Spec.digit_string 15 (pre ++ a :: post) ->
  Spec.digit_string 15 (pre ++ b :: post) ->
  a <> b ->
  validateIMEIChecksum (pre ++ a :: post) = true ->
  validateIMEIChecksum (pre ++ b :: post) = false.
Proof.
  intros Ha Hb Hab Hva.
  destruct (validateIMEIChecksum (pre ++ b :: post)) eqn:Hvb; [|reflexivity].
  exfalso. apply Hab.
  apply imei_checksum_weighted in Hva; [|exact Ha].
  apply imei_checksum_weighted in Hvb; [|exact Hb].
  apply (one_digit_changed Spec.luhn_adjust 14 luhn_adjust_separates pre post a b); auto.
  - exact (proj1 Ha).
  - exact (digit_string_middle _ _ _ _ Ha).
  - exact (digit_string_middle _ _ _ _ Hb).
Qed.

Lemma imei_checksum_detects_one_wrong_digit_witness :
  validateIMEIChecksum (lit "4901" ++ 54%N :: lit "4203237518") = false.
Proof.
  apply (imei_checksum_detects_one_wrong_digit
           (lit "4901") (lit "4203237518") 53%N 54%N).
  - split; [reflexivity | repeat constructor].
  - split; [reflexivity | repeat constructor].
  - discriminate.
  - reflexivity.
Defined.

(** The same two facts for the weighted checksums: an 11-digit prefix
    has exactly one completing UPC-A digit and a 12-digit prefix exactly
    one completing EAN-13 digit. *)
Theorem upca_ean13_check_digit_exists_unique :
  (forall p, Spec.digit_string 11 p ->
     exists d, class_digit d = true
       /\ validateUPCChecksum (p ++ [d]) = true
       /\ forall d', class_digit d' = true ->
            validateUPCChecksum (p ++ [d']) = true -> d' = d)
  /\ (forall p, Spec.digit_string 12 p ->
     exists d, class_digit d = true
       /\ validateEAN13Checksum (p ++ [d]) = true
       /\ forall d', class_digit d' = true ->
            validateEAN13Checksum (p ++ [d']) = true -> d' = d).
Proof.
  split; intros p Hp.
  - destruct (completing_digit Spec.weight 11 p (proj1 Hp)) as (d & Hd & Hv).
    exists d. split; [exact Hd|]. split.
    + apply upca_checksum_weighted; [now apply digit_string_app | exact Hv].
    + intros d' Hd' Hv'.
      apply upca_checksum_weighted in Hv'; [|now apply digit_string_app].
      apply (one_digit_changed Spec.weight 11 weight_separates p [] d' d); auto.
      rewrite length_app. simpl. destruct Hp as [-> _]. reflexivity.
  - destruct (completing_digit Spec.weight 12 p (proj1 Hp)) as (d & Hd & Hv).
    exists d. split; [exact Hd|]. split.
    + apply ean13_checksum_weighted; [now apply digit_string_app | exact Hv].
    + intros d' Hd' Hv'.
      apply ean13_checksum_weighted in Hv'; [|now apply digit_string_app].
      apply (one_digit_changed Spec.weight 12 weight_separates p [] d' d); auto.
      rewrite length_app. simpl. destruct Hp as [-> _]. reflexivity.
Qed.

Lemma upca_ean13_check_digit_exists_unique_witness :
  (exists d, class_digit d = true
     /\ validateUPCChecksum (lit "03600029145" ++ [d]) = true
     /\ forall d', class_digit d' = true ->
          validateUPCChecksum (lit "03600029145" ++ [d']) = true -> d' = d)
  /\ (exists d, class_digit d = true
     /\ validateEAN13Checksum (lit "400638133393" ++ [d]) = true
     /\ forall d', class_digit d' = true ->
          validateEAN13Checksum (lit "400638133393" ++ [d']) = true -> d' = d).
Proof.
  split.
  - apply (proj1 upca_ean13_check_digit_exists_unique (lit "03600029145")).
    split; [reflexivity | repeat constructor].
  - apply (proj2 upca_ean13_check_digit_exists_unique (lit "400638133393")).
    split; [reflexivity | repeat constructor].
Defined.

(** The weighted checksums, too, reject a valid string in which one
    digit was replaced by a different one. *)
Theorem upca_ean13_checksum_detects_one_wrong_digit
        (pre post : jsstring) (a b : codeunit) :
  a <> b ->
  (Spec.digit_string 12 (pre ++ a :: post) ->
   Spec.digit_string 12 (pre ++ b :: post) ->
   validateUPCChecksum (pre ++ a :: post) = true ->
   validateUPCChecksum (pre ++ b :: post) = false)
  /\ (Spec.digit_string 13 (pre ++ a :: post) ->
   Spec.digit_string 13 (pre ++ b :: post) ->
   validateEAN13Checksum (pre ++ a :: post) = true ->
   validateEAN13Checksum (pre ++ b :: post) = false).
Proof.
  intros Hab. split; intros Ha Hb Hva.
  - destruct (validateUPCChecksum (pre ++ b :: post)) eqn:Hvb; [|reflexivity].
    exfalso. apply Hab.
    apply upca_checksum_weighted in Hva; [|exact Ha].
    apply upca_checksum_weighted in Hvb; [|exact Hb].
    apply (one_digit_changed Spec.weight 11 weight_separates pre post a b); auto.
    + exact (proj1 Ha).
    + exact (digit_string_middle _ _ _ _ Ha).
    + exact (digit_string_middle _ _ _ _ Hb).
  - destruct (validateEAN13Checksum (pre ++ b :: post)) eqn:Hvb; [|reflexivity].
    exfalso. apply Hab.
    apply ean13_checksum_weighted in Hva; [|exact Ha].
    apply ean13_checksum_weighted in Hvb; [|exact Hb].
    apply (one_digit_changed Spec.weight 12 weight_separates pre post a b); auto.
    + exact (proj1 Ha).
    + exact (digit_string_middle _ _ _ _ Ha).
    + exact (digit_string_middle _ _ _ _ Hb).
Qed.

Lemma upca_ean13_checksum_detects_one_wrong_digit_witness :
  validateUPCChecksum (lit "03600" ++ 49%N :: lit "291458") = false
  /\ validateEAN13Checksum (lit "40063" ++ 57%N :: lit "1333931") = false.
Proof.
  split.
  - apply (proj1 (upca_ean13_checksum_detects_one_wrong_digit
                    (lit "03600") (lit "291458") 48%N 49%N ltac:(discriminate))).
    + split; [reflexivity | repeat constructor].
    + split; [reflexivity | repeat constructor].
    + reflexivity.
  - apply (proj2 (upca_ean13_checksum_detects_one_wrong_digit
                    (lit "40063") (lit "1333931") 56%N 57%N ltac:(discriminate))).
    + split; [reflexivity | repeat constructor].
    + split; [reflexivity | repeat constructor].
    + reflexivity.
Defined.

(** * The scanning loop as a whole *)

Lemma same_frame_refl (st : Scanner) : same_frame st st.
Proof. repeat split. Qed.

Lemma same_frame_log (st st' : Scanner) : same_frame st st' -> same_log st st'.
Proof. intros (H1 & H2 & _). split; assumption. Qed.

Lemma same_frame_trans (a b c : Scanner) :
  same_frame a b -> same_frame b c -> same_frame a c.
Proof.
  unfold same_frame. intros (-> & -> & -> & -> & -> & ->) (-> & -> & -> & -> & -> & ->).
  repeat split.
Qed.

Lemma blocked_same_log (st st' : Scanner) (d : Detection) :
  same_log st st' -> blocked st' d = blocked st d.
Proof.
  intros [Hlog Hset]. unfold blocked, result.
  now rewrite !isDuplicate_run, Hlog, Hset.
Qed.

(** ** The session id *)

Lemma getSessionId_nonempty (st : Scanner) : result getSessionId st <> [].
Proof.
  unfold result, getSessionId, bind, gets, dateNow, modify, ret.
  destruct (sessionId st) as [[|c s]|]; cbn [fst]; try discriminate;
    destruct (currentUser st) as [[|u us]|]; discriminate.
Qed.

Lemma getSessionId_sets (st : Scanner) :
  sessionId (after getSessionId st) = Some (result getSessionId st).
Proof.
  unfold result, after, getSessionId, bind, gets, dateNow, modify, ret.
  destruct (sessionId st) as [[|c s]|] eqn:Hs; cbn [fst snd]; auto.
Qed.

Lemma getSessionId_issued (st : Scanner) (sid : jsstring) :
  sessionId st = Some sid -> sid <> [] ->
  getSessionId st = (sid, st).
Proof.
  intros Hs Hne. unfold getSessionId, bind, gets. cbn. rewrite Hs.
  destruct sid as [|c s]; [congruence | reflexivity].
Qed.

Lemma getSessionId_frame (st : Scanner) : same_frame st (after getSessionId st).
Proof.
  unfold after, getSessionId, bind, gets, dateNow, modify, ret.
  destruct (sessionId st) as [[|c s]|]; cbn [fst snd]; repeat split.
Qed.

Lemma getSessionId_counts (st : Scanner) :
  duplicateCount (after getSessionId st) = duplicateCount st.
Proof.
  unfold after, getSessionId, bind, gets, dateNow, modify, ret.
  destruct (sessionId st) as [[|c s]|]; reflexivity.
Qed.

(** Once asked for, the session id stays: it is not empty, it is kept
    in the scanner, and every later call returns the same string
    without reading the clock or changing anything. *)
Theorem session_id_is_issued_once (st : Scanner) :
  let sid := result getSessionId st in
  let st1 := after getSessionId st in
  sid <> []
  /\ sessionId st1 = Some sid
  /\ getSessionId st1 = (sid, st1).
Proof.
  cbv zeta. split; [apply getSessionId_nonempty|].
  split; [apply getSessionId_sets|].
  apply getSessionId_issued; [apply getSessionId_sets | apply getSessionId_nonempty].
Qed.

Lemma session_kept_result (st st' : Scanner) :
  same_frame st st' -> session_kept st st' ->
  result getSessionId st' = result getSessionId st.
Proof.
  intros (_ & _ & Hu & _ & Hc & _) [[Hs Hr]|Hs].
  - unfold result, getSessionId, bind, gets, dateNow, modify, ret.
    rewrite Hs. destruct (sessionId st) as [[|c s]|]; cbn [fst snd];
      rewrite ?Hu, ?Hr, ?Hc; reflexivity.
  - unfold result at 1.
    now rewrite (getSessionId_issued st' _ Hs (getSessionId_nonempty st)).
Qed.

Lemma session_kept_after (st st' : Scanner) :
  same_frame st st' -> session_kept st st' ->
  sessionId (after getSessionId st') = Some (result getSessionId st).
Proof.
  intros Hf Hk. rewrite getSessionId_sets. f_equal. now apply session_kept_result.
Qed.

(** ** One turn of the loop *)

Lemma processOne_run (acc : list jsobj) (d : Detection) (st : Scanner) :
  processOne acc d st
  = if accepted st d then
      (acc ++ [built_record d (user_value (currentUser st)) (result getSessionId st)
                 (result generateId (after getSessionId st))],
       after generateId (after getSessionId st))
    else if blocked st d then (acc, set_duplicateCount (duplicateCount st + 1) st)
    else (acc, st).
Proof.
  unfold processOne, accepted, blocked, result.
  destruct (isValid (analyzeBarcodeType (det_text d))); cbn [andb]; [|reflexivity].
  unfold bind at 1. rewrite isDuplicate_run. cbv beta iota. cbn [fst].
  destruct (if strict_eq_str _ (lit "allow") then false else _); cbn [negb].
  - reflexivity.
  - unfold bind, gets, after, result.
    destruct (getSessionId st) as [sid st1]. cbn [fst snd].
    destruct (generateId st1) as [id st2]. reflexivity.
Qed.

Lemma generateId_frame (st : Scanner) :
  same_frame st (after generateId st)
  /\ sessionId (after generateId st) = sessionId st
  /\ duplicateCount (after generateId st) = duplicateCount st.
Proof. repeat split. Qed.

Lemma accepted_not_blocked (st : Scanner) (d : Detection) :
  accepted st d = true -> blocked st d = false.
Proof.
  unfold accepted, blocked.
  destruct (isValid _), (result (isDuplicate (det_text d)) st); simpl; congruence.
Qed.

Lemma process_loop_full (st0 : Scanner) (results : list Detection) :
  forall (acc : list jsobj) (st : Scanner),
    same_frame st0 st -> session_kept st0 st ->
    same_frame st0 (after (for_of processOne results acc) st)
    /\ session_kept st0 (after (for_of processOne results acc) st)
    /\ duplicateCount (after (for_of processOne results acc) st)
       = duplicateCount st + Z.of_nat (List.length (filter (blocked st0) results))
    /\ exists new,
         result (for_of processOne results acc) st = acc ++ new
         /\ Forall2 (record_for st0) (filter (accepted st0) results) new.
Proof.
  induction results as [|d results IH]; intros acc st Hf Hk.
  - unfold after, result. cbn.
    split; [exact Hf|]. split; [exact Hk|]. split; [lia|].
    exists []. split; [now rewrite app_nil_r | constructor].
  - unfold after, result in *. cbn [for_of]. rewrite bind_run.
    unfold result, after. rewrite processOne_run.
    rewrite (accepted_same_log st0 st d (same_frame_log _ _ Hf)).
    rewrite (blocked_same_log st0 st d (same_frame_log _ _ Hf)).
    cbn [filter].
    destruct (accepted st0 d) eqn:Hacc.
    + rewrite (accepted_not_blocked _ _ Hacc). cbn [fst snd].
      assert (Hf' : same_frame st0 (after generateId (after getSessionId st))).
      { eapply same_frame_trans; [exact Hf|].
        eapply same_frame_trans; [apply getSessionId_frame | apply generateId_frame]. }
      assert (Hk' : session_kept st0 (after generateId (after getSessionId st))).
      { right. now apply session_kept_after. }
      destruct (IH (acc ++ [built_record d (user_value (currentUser st))
                              (result getSessionId st)
                              (result generateId (after getSessionId st))])
                   (after generateId (after getSessionId st)) Hf' Hk')
        as (Hf2 & Hk2 & Hdc & new & Hnew & Hrec).
      split; [exact Hf2|]. split; [exact Hk2|]. split.
      * rewrite Hdc. f_equal. apply getSessionId_counts.
      * eexists (_ :: new). split.
        -- rewrite Hnew, <- app_assoc. reflexivity.
        -- constructor; [|exact Hrec].
           exists (result generateId (after getSessionId st)).
           rewrite (session_kept_result st0 st Hf Hk).
           destruct Hf as (_ & _ & -> & _). reflexivity.
    + destruct (blocked st0 d) eqn:Hbl; cbn [fst snd].
      * destruct (IH acc (set_duplicateCount (duplicateCount st + 1) st))
          as (Hf2 & Hk2 & Hdc & new & Hnew & Hrec).
        { destruct Hf as (? & ? & ? & ? & ? & ?). repeat split; assumption. }
        { destruct Hk as [[? ?]|?]; [left; split; assumption | right; assumption]. }
        split; [exact Hf2|]. split; [exact Hk2|]. split.
        -- rewrite Hdc. cbn [List.length duplicateCount set_duplicateCount]. lia.
        -- exists new. split; assumption.
      * apply IH; assumption.
Qed.

Lemma addScanResults_run (barcodes : list jsobj) (st : Scanner) :
  after (addScanResults barcodes) st
  = set_totalScans (totalScans st + Z.of_nat (List.length barcodes))
      (set_scanData (scanData st ++ barcodes) st).
Proof.
  unfold addScanResults, after. revert st.
  induction barcodes as [|b barcodes IH]; intros st.
  - cbn. destruct st. unfold set_totalScans, set_scanData. cbn.
    now rewrite app_nil_r, Z.add_0_r.
  - cbn [for_of]. unfold bind at 1. unfold bind at 1. unfold modify at 1 2.
    cbv beta iota. rewrite IH.
    unfold set_totalScans, set_scanData. cbn -[Z.of_nat Z.add].
    rewrite <- app_assoc. cbn [app]. f_equal. lia.
Qed.

(** What one call of [processDetectedBarcodes] does to the scanner, in
    terms of the state it started from. *)
Lemma processDetectedBarcodes_run (st : Scanner) (results : list Detection) :
  let st' := after (processDetectedBarcodes results) st in
  exists added,
    scanData st' = scanData st ++ added
    /\ Forall2 (record_for st) (filter (accepted st) results) added
    /\ totalScans st' = totalScans st + Z.of_nat (List.length added)
    /\ duplicateCount st'
       = duplicateCount st + Z.of_nat (List.length (filter (blocked st) results))
    /\ settings st' = settings st
    /\ currentUser st' = currentUser st
    /\ clock st' = clock st
    /\ session_kept st st'.
Proof.
  cbv zeta.
  destruct (process_loop_full st results [] st (same_frame_refl st)
              (or_introl (conj eq_refl eq_refl)))
    as ((Hlog & Hset & Hu & Hts & Hck & _) & Hk & Hdc & new & Hnew & Hrec).
  exists new. unfold processDetectedBarcodes, after at 1 2 3 4 5 6 7.
  rewrite bind_run. rewrite Hnew. cbn [app].
  destruct new as [|r new]; cbn [List.length Nat.ltb Nat.leb].
  - unfold ret. cbn [snd]. rewrite app_nil_r, Z.add_0_r. repeat split; auto.
  - fold (after (addScanResults (r :: new)) (after (for_of processOne results []) st)).
    rewrite addScanResults_run.
    unfold set_totalScans, set_scanData. cbn -[Z.of_nat Z.add List.length].
    rewrite Hlog, Hts. repeat split; auto.
Qed.

(** ** What a batch leaves in the log and in the counters *)

Lemma built_record_mirrors (st : Scanner) (d : Detection) (r : jsobj) :
  isValid (analyzeBarcodeType (det_text d)) = true ->
  record_for st d r -> mirrors st d r.
Proof.
  intros Hvalid [id ->]. unfold mirrors, built_record, detection_object. cbv zeta.
  revert Hvalid. generalize (analyzeBarcodeType (det_text d)) as info. intros info Hvalid.
  destruct (det_region d);
    (repeat (split; [reflexivity|]));
    (split; [cbn; now rewrite Hvalid|]);
    (repeat (split; [reflexivity|]));
    (split; [eexists; reflexivity | reflexivity]).
Qed.

Lemma Forall2_filter_impl {A B} (p : A -> bool) (P Q : A -> B -> Prop)
      (l : list A) (l' : list B) :
  (forall a b, p a = true -> P a b -> Q a b) ->
  Forall2 P (filter p l) l' -> Forall2 Q (filter p l) l'.
Proof.
  intros HPQ H.
  assert (Hall : Forall (fun a => p a = true) (filter p l)).
  { apply Forall_forall. intros a Ha. now apply filter_In in Ha. }
  induction H as [|a b la lb Hab _ IH]; constructor.
  - apply HPQ; [now inversion Hall | exact Hab].
  - apply IH. now inversion Hall.
Qed.

(** Every record that [processDetectedBarcodes] appends mirrors one
    accepted detection, in the order of detection: it keeps the
    decoder's text, format and timestamp, carries the type, vendor and
    checksum of the classification with [isValid] true, the current
    user, one session id for the whole batch and a string id, and it has
    every field a scan record needs. *)
Theorem appended_records_mirror_detections (st : Scanner) (results : list Detection) :
  exists added,
    scanData (after (processDetectedBarcodes results) st) = scanData st ++ added
    /\ Forall2 (mirrors st) (filter (accepted st) results) added.
Proof.
  destruct (processDetectedBarcodes_run st results) as (added & Hlog & Hrec & _).
  exists added. split; [exact Hlog|].
  eapply Forall2_filter_impl; [|exact Hrec].
  intros d r Hacc Hr. apply built_record_mirrors; [|exact Hr].
  unfold accepted in Hacc. now apply andb_true_iff in Hacc.
Qed.

(** The counters account for every detection of a batch: the log and
    [totalScans] grow by the number of accepted detections,
    [duplicateCount] by the number of detections that matched a shape
    but were turned away as duplicates, detections of unknown shape
    count nowhere, and the settings and the user are not touched. *)
Theorem batch_counters_account_for_detections (st : Scanner) (results : list Detection) :
  let st' := after (processDetectedBarcodes results) st in
  List.length (scanData st')
    = (List.length (scanData st) + List.length (filter (accepted st) results))%nat
  /\ totalScans st'
     = totalScans st + Z.of_nat (List.length (filter (accepted st) results))
  /\ duplicateCount st'
     = duplicateCount st + Z.of_nat (List.length (filter (blocked st) results))
  /\ settings st' = settings st
  /\ currentUser st' = currentUser st.
Proof.
  cbv zeta.
  destruct (processDetectedBarcodes_run st results)
    as (added & Hlog & Hrec & Hts & Hdc & Hset & Hu & _).
  apply Forall2_length in Hrec.
  rewrite Hlog, length_app, Hts, Hdc, Hrec. repeat split; auto.
Qed.

Lemma getSessionId_same_inputs (st st' : Scanner) :
  currentUser st' = currentUser st -> clock st' = clock st ->
  session_kept st st' ->
  result getSessionId st' = result getSessionId st.
Proof.
  intros Hu Hc [[Hs Hr]|Hs].
  - unfold result, getSessionId, bind, gets, dateNow, modify, ret.
    rewrite Hs. destruct (sessionId st) as [[|c s]|]; cbn [fst snd];
      rewrite ?Hu, ?Hr, ?Hc; reflexivity.
  - unfold result at 1.
    now rewrite (getSessionId_issued st' _ Hs (getSessionId_nonempty st)).
Qed.

(** A batch never changes the session id: [getSessionId] answers after
    the batch what it would have answered before it, so the records of
    successive batches carry one and the same session id. *)
Theorem batches_share_the_session_id (st : Scanner) (results : list Detection) :
  result getSessionId (after (processDetectedBarcodes results) st)
  = result getSessionId st.
Proof.
  destruct (processDetectedBarcodes_run st results)
    as (added & _ & _ & _ & _ & _ & Hu & Hc & Hk).
  now apply getSessionId_same_inputs.
Qed.

(** ** Duplicates across and within batches *)

Lemma isDuplicate_blocking (st : Scanner) (text : jsstring) :
  get_prop (settings st) "duplicateHandling" <> VStr (lit "allow") ->
  (result (isDuplicate text) st = true <-> text_in_log text (scanData st)).
Proof.
  intros Hne. unfold result. rewrite isDuplicate_run. cbn [fst].
  apply strict_eq_str_neq in Hne. rewrite Hne. apply existsb_text.
Qed.

Lemma text_in_log_app (t : jsstring) (l l' : list jsobj) :
  text_in_log t (l ++ l') <-> text_in_log t l \/ text_in_log t l'.
Proof.
  unfold text_in_log. split.
  - intros (o & Hin & Ht). apply in_app_or in Hin.
    destruct Hin; [left | right]; exists o; auto.
  - intros [(o & Hin & Ht)|(o & Hin & Ht)]; exists o; split; auto;
      apply in_or_app; auto.
Qed.

Lemma record_for_text (st : Scanner) (d : Detection) (r : jsobj) :
  record_for st d r -> text_of r = VStr (det_text d).
Proof. intros [id ->]. apply record_text. Qed.

(** Under any policy other than "allow", a valid detection is a
    duplicate once it has been processed: scanning it again adds
    nothing to the log and raises [duplicateCount] by one. *)
Theorem rescan_is_blocked (st : Scanner) (d : Detection) :
  get_prop (settings st) "duplicateHandling" <> VStr (lit "allow") ->
  isValid (analyzeBarcodeType (det_text d)) = true ->
  let st1 := after (processDetectedBarcodes [d]) st in
  let st2 := after (processDetectedBarcodes [d]) st1 in
  result (isDuplicate (det_text d)) st1 = true
  /\ scanData st2 = scanData st1
  /\ duplicateCount st2 = duplicateCount st1 + 1.
Proof.
  intros Hpol Hvalid. cbv zeta.
  destruct (processDetectedBarcodes_run st [d])
    as (added & Hlog & Hrec & _ & _ & Hset & _).
  assert (Hdup : result (isDuplicate (det_text d))
                        (after (processDetectedBarcodes [d]) st) = true).
  { apply isDuplicate_blocking; [now rewrite Hset|].
    rewrite Hlog. apply text_in_log_app.
    cbn [filter] in Hrec. destruct (accepted st d) eqn:Hacc.
    - right. inversion Hrec as [|? r ? ? Hr Hrest]; subst.
      exists r. split; [now left | exact (record_for_text _ _ _ Hr)].
    - left. apply isDuplicate_blocking; [exact Hpol|].
      unfold accepted in Hacc. rewrite Hvalid in Hacc. cbn in Hacc.
      now apply negb_false_iff in Hacc. }
  split; [exact Hdup|].
  destruct (processDetectedBarcodes_run (after (processDetectedBarcodes [d]) st) [d])
    as (added2 & Hlog2 & Hrec2 & _ & Hdc2 & _).
  cbn [filter] in Hrec2, Hdc2. unfold accepted in Hrec2. unfold blocked in Hdc2.
  rewrite Hvalid, Hdup in Hrec2, Hdc2. cbn in Hrec2, Hdc2.
  inversion Hrec2; subst. rewrite app_nil_r in Hlog2. split; assumption.
Qed.

Lemma rescan_is_blocked_witness :
  result (isDuplicate (det_text upc_detection))
         (after (processDetectedBarcodes [upc_detection]) scanner0) = true
  /\ scanData (after (processDetectedBarcodes [upc_detection])
                     (after (processDetectedBarcodes [upc_detection]) scanner0))
     = scanData (after (processDetectedBarcodes [upc_detection]) scanner0)
  /\ duplicateCount (after (processDetectedBarcodes [upc_detection])
                           (after (processDetectedBarcodes [upc_detection]) scanner0))
     = duplicateCount (after (processDetectedBarcodes [upc_detection]) scanner0) + 1.
Proof.
  apply (rescan_is_blocked scanner0 upc_detection).
  - simpl. discriminate.
  - reflexivity.
Defined.

Lemma text_of_in_log (t : jsstring) (log : list jsobj) :
  In (VStr t) (List.map text_of log) <-> text_in_log t log.
Proof.
  rewrite in_map_iff. unfold text_in_log, text_of.
  split; intros (o & H1 & H2); exists o; auto.
Qed.

(** Under any policy other than "allow", batches of at most one
    detection, the size [scanImageData] produces, keep the texts of the
    log pairwise distinct. *)
Theorem single_detections_keep_texts_distinct (st : Scanner) (results : list Detection) :
  get_prop (settings st) "duplicateHandling" <> VStr (lit "allow") ->
  (List.length results <= 1)%nat ->
  NoDup (List.map text_of (scanData st)) ->
  NoDup (List.map text_of (scanData (after (processDetectedBarcodes results) st))).
Proof.
  intros Hpol Hlen Hnd.
  destruct (processDetectedBarcodes_run st results) as (added & Hlog & Hrec & _).
  rewrite Hlog, map_app.
  destruct results as [|d [|d' results]]; [| |simpl in Hlen; lia].
  - inversion Hrec; subst. simpl. now rewrite app_nil_r.
  - cbn [filter] in Hrec. destruct (accepted st d) eqn:Hacc.
    + inversion Hrec as [|? r ? ? Hr Hrest]; subst. inversion Hrest; subst.
      cbn [List.map]. rewrite (record_for_text _ _ _ Hr).
      apply NoDup_app; [exact Hnd | repeat constructor; intros [] |].
      intros v Hv [<-|[]]. apply text_of_in_log in Hv.
      apply (isDuplicate_blocking st _ Hpol) in Hv.
      unfold accepted in Hacc. rewrite Hv, andb_false_r in Hacc. discriminate.
    + inversion Hrec; subst. simpl. now rewrite app_nil_r.
Qed.

Lemma single_detections_keep_texts_distinct_witness :
  NoDup (List.map text_of
           (scanData (after (processDetectedBarcodes [upc_detection])
                            (with_policy (VStr (lit "block")) [ean_record])))).
Proof.
  apply (single_detections_keep_texts_distinct
           (with_policy (VStr (lit "block")) [ean_record]) [upc_detection]).
  - simpl. discriminate.
  - simpl. lia.
  - simpl. repeat constructor. intros [].
Defined.

(** The duplicate guard looks at the log as it was when the batch
    started: a detection that is accepted and occurs twice in one batch
    is appended twice, with the same text, whatever the policy. *)
Theorem same_batch_repeats_are_both_appended (st : Scanner) (d : Detection) :
  accepted st d = true ->
  exists r1 r2,
    scanData (after (processDetectedBarcodes [d; d]) st) = scanData st ++ [r1; r2]
    /\ text_of r1 = VStr (det_text d)
    /\ text_of r2 = VStr (det_text d).
Proof.
  intros Hacc.
  destruct (processDetectedBarcodes_run st [d; d]) as (added & Hlog & Hrec & _).
  cbn [filter] in Hrec. rewrite Hacc in Hrec.
  inversion Hrec as [|? r1 ? rest Hr1 Hrest]; subst.
  inversion Hrest as [|? r2 ? rest' Hr2 Hrest']; subst.
  inversion Hrest'; subst.
  exists r1, r2. split; [exact Hlog|].
  split; eapply record_for_text; eassumption.
Qed.

Lemma same_batch_repeats_are_both_appended_witness :
  exists r1 r2,
    scanData (after (processDetectedBarcodes [upc_detection; upc_detection]) scanner0)
    = scanData scanner0 ++ [r1; r2]
    /\ text_of r1 = VStr (det_text upc_detection)
    /\ text_of r2 = VStr (det_text upc_detection).
Proof.
  apply (same_batch_repeats_are_both_appended scanner0 upc_detection).
  reflexivity.
Defined.

(** ** The count of valid scans *)

Lemma validScans_app (l l' : list jsobj) :
  validScans (l ++ l') = (validScans l + validScans l')%nat.
Proof. unfold validScans. now rewrite filter_app, length_app. Qed.

Lemma filter_filter_and {A} (p q : A -> bool) (l : list A) :
  filter q (filter p l) = filter (fun a => p a && q a) l.
Proof.
  induction l as [|a l IH]; simpl; auto.
  destruct (p a); simpl; [destruct (q a)|]; now rewrite IH.
Qed.

Lemma record_for_checksum (st : Scanner) (d : Detection) (r : jsobj) :
  record_for st d r ->
  truthy (get_prop r "checksum") = checksum (analyzeBarcodeType (det_text d)).
Proof.
  intros [id ->]. unfold built_record, detection_object.
  generalize (analyzeBarcodeType (det_text d)) as info. intros info.
  destruct (det_region d); reflexivity.
Qed.

(** The number that [updateStatistics] shows as valid scans grows, with
    each batch, by the number of accepted detections whose checksum the
    classifier reported as true. *)
Theorem valid_scans_count_true_checksums (st : Scanner) (results : list Detection) :
  validScans (scanData (after (processDetectedBarcodes results) st))
  = (validScans (scanData st)
     + List.length (filter (fun d => accepted st d
                              && checksum (analyzeBarcodeType (det_text d))) results))%nat.
Proof.
  destruct (processDetectedBarcodes_run st results) as (added & Hlog & Hrec & _).
  rewrite Hlog, validScans_app. f_equal.
  rewrite <- filter_filter_and. unfold validScans. clear Hlog.
  induction Hrec as [|d r ds rs Hr _ IH]; [reflexivity|].
  cbn [filter]. rewrite (record_for_checksum _ _ _ Hr).
  destruct (checksum (analyzeBarcodeType (det_text d))); cbn [List.length]; now rewrite IH.
Qed.

(** ** Deleting and clearing *)

Lemma filter_idem {A} (p : A -> bool) (l : list A) : filter p (filter p l) = filter p l.
Proof.
  apply filter_id. intros x Hx. now apply filter_In in Hx.
Qed.

(** A confirmed [deleteResult] removes the records whose id is the
    given string and no other record; the log never grows, a second
    delete by the same id changes nothing, a declined dialog changes
    nothing, and [totalScans] is not counted down. *)
Theorem deleteResult_removes_matching_ids (st : Scanner) (id : jsstring) :
  let st' := after (deleteResult true id) st in
  (forall o, In o (scanData st')
             <-> In o (scanData st) /\ get_prop o "id" <> VStr id)
  /\ (List.length (scanData st') <= List.length (scanData st))%nat
  /\ after (deleteResult true id) st' = st'
  /\ after (deleteResult false id) st = st
  /\ totalScans st' = totalScans st.
Proof.
  cbv zeta. unfold after, deleteResult, modify, ret. cbn [snd].
  unfold set_scanData. cbn [scanData totalScans currentUser duplicateCount settings
                            sessionId clock randomSuffix reads].
  split; [|split; [|split; [|split]]]; try reflexivity.
  - intros o. rewrite filter_In, negb_true_iff, strict_eq_str_neq. reflexivity.
  - apply filter_length_le.
  - now rewrite filter_idem.
Qed.

(** Deleting frees a text: after a confirmed delete, under any policy
    other than "allow", a text is a duplicate exactly when a record
    with another id still carries it. *)
Theorem deleted_text_can_be_scanned_again (st : Scanner) (id text : jsstring) :
  get_prop (settings st) "duplicateHandling" <> VStr (lit "allow") ->
  (result (isDuplicate text) (after (deleteResult true id) st) = true
   <-> exists o, In o (scanData st)
                 /\ get_prop o "id" <> VStr id
                 /\ get_prop o "text" = VStr text).
Proof.
  intros Hpol. rewrite isDuplicate_blocking by exact Hpol.
  unfold text_in_log, after, deleteResult, modify. cbn [snd].
  unfold set_scanData. cbn [scanData].
  split.
  - intros (o & Hin & Ht). apply filter_In in Hin. destruct Hin as [Hin Hid].
    exists o. repeat split; auto. now apply strict_eq_str_neq, negb_true_iff.
  - intros (o & Hin & Hid & Ht). exists o. split; [|exact Ht].
    apply filter_In. split; [exact Hin|]. now apply negb_true_iff, strict_eq_str_neq.
Qed.

Lemma deleted_text_can_be_scanned_again_witness :
  result (isDuplicate (lit "036000291452"))
         (after (deleteResult true (lit "loyw3v29k3x9"))
                (with_policy (VStr (lit "block")) [upc_record; ean_record])) = true
  <-> exists o, In o [upc_record; ean_record]
                /\ get_prop o "id" <> VStr (lit "loyw3v29k3x9")
                /\ get_prop o "text" = VStr (lit "036000291452").
Proof.
  apply (deleted_text_can_be_scanned_again
           (with_policy (VStr (lit "block")) [upc_record; ean_record])
           (lit "loyw3v29k3x9") (lit "036000291452")).
  simpl. discriminate.
Defined.

(** A confirmed [clearSession] empties the log and sets the three
    counters to zero, after which no text is a duplicate and every
    detection of a known shape is accepted again; the settings, the
    user and the session id survive it. A declined dialog changes
    nothing. *)
Theorem clearSession_starts_over (pg : Page) :
  let pg' := clearSession true pg in
  scanData (scanner pg') = []
  /\ totalScans (scanner pg') = 0
  /\ duplicateCount (scanner pg') = 0
  /\ errorCount pg' = 0
  /\ validScans (scanData (scanner pg')) = 0%nat
  /\ (forall text, result (isDuplicate text) (scanner pg') = false)
  /\ (forall d, accepted (scanner pg') d = isValid (analyzeBarcodeType (det_text d)))
  /\ settings (scanner pg') = settings (scanner pg)
  /\ currentUser (scanner pg') = currentUser (scanner pg)
  /\ sessionId (scanner pg') = sessionId (scanner pg)
  /\ clearSession false pg = pg.
Proof.
  cbv zeta.
  assert (Hdup : forall text, result (isDuplicate text) (scanner (clearSession true pg)) = false).
  { intros text. unfold result. rewrite isDuplicate_run. cbn.
    now destruct (strict_eq_str _ _). }
  repeat split; auto.
  intros d. unfold accepted. rewrite Hdup. apply andb_true_r.
Qed.

(** ** Settings *)

Lemma get_set_same (k : string) (v : jsval) (o : jsobj) :
  get_prop (set_prop k v o) k = v.
Proof.
  induction o as [|[k' v'] o IH]; simpl.
  - now rewrite String.eqb_refl.
  - destruct (String.eqb k' k) eqn:E; simpl.
    + now rewrite String.eqb_refl.
    + now rewrite E.
Qed.

Lemma get_set_other (k k' : string) (v : jsval) (o : jsobj) :
  k <> k' -> get_prop (set_prop k v o) k' = get_prop o k'.
Proof.
  intros Hne. induction o as [|[k0 v0] o IH]; simpl.
  - now rewrite (proj2 (String.eqb_neq k k') Hne).
  - destruct (String.eqb k0 k) eqn:E; simpl.
    + apply String.eqb_eq in E. subst k0.
      now rewrite (proj2 (String.eqb_neq k k') Hne).
    + destruct (String.eqb k0 k'); auto.
Qed.

Lemma has_set (k k' : string) (v : jsval) (o : jsobj) :
  has_prop (set_prop k v o) k' = (String.eqb k k' || has_prop o k')%bool.
Proof.
  induction o as [|[k0 v0] o IH]; simpl.
  - reflexivity.
  - destruct (String.eqb k0 k) eqn:E; simpl.
    + apply String.eqb_eq in E. subst k0. now destruct (String.eqb k k').
    + rewrite IH. destruct (String.eqb k0 k'), (String.eqb k k'); reflexivity.
Qed.

Lemma has_spread (tgt src : jsobj) (k : string) :
  has_prop (spread tgt src) k = (has_prop tgt k || has_prop src k)%bool.
Proof.
  unfold spread. revert tgt.
  induction src as [|[k0 v0] src IH]; intros tgt; simpl.
  - now rewrite orb_false_r.
  - rewrite IH, has_set.
    destruct (String.eqb k0 k), (has_prop tgt k); reflexivity.
Qed.

Lemma get_spread_absent (tgt src : jsobj) (k : string) :
  has_prop src k = false -> get_prop (spread tgt src) k = get_prop tgt k.
Proof.
  unfold spread. revert tgt.
  induction src as [|[k0 v0] src IH]; intros tgt; simpl; auto.
  intros H. apply orb_false_iff in H. destruct H as [Hk Hsrc].
  rewrite IH by exact Hsrc. apply get_set_other. now apply String.eqb_neq.
Qed.

Lemma has_prop_In (o : jsobj) (k : string) :
  has_prop o k = true <-> In k (List.map fst o).
Proof.
  induction o as [|[k0 v0] o IH]; simpl; [split; [discriminate | tauto]|].
  rewrite orb_true_iff, String.eqb_eq, IH. reflexivity.
Qed.

Lemma get_spread_present (tgt src : jsobj) (k : string) (v : jsval) :
  NoDup (List.map fst src) -> In (k, v) src -> get_prop (spread tgt src) k = v.
Proof.
  unfold spread. revert tgt.
  induction src as [|[k0 v0] src IH]; intros tgt Hnd Hin; [destruct Hin|].
  simpl in Hnd. inversion Hnd as [|? ? Hnotin Hnd']; subst.
  simpl. destruct Hin as [Heq|Hin].
  - injection Heq as -> ->.
    fold (spread (set_prop k v tgt) src). rewrite get_spread_absent.
    + apply get_set_same.
    + destruct (has_prop src k) eqn:E; auto. apply has_prop_In in E. contradiction.
  - now apply IH.
Qed.

(** [loadSettings] always yields every default key. Without a stored
    item, or with one that does not parse, the result is the defaults;
    with a stored object, a key it holds takes the stored value and a
    key it lacks keeps the default. *)
Theorem loadSettings_merges_over_defaults (saved : SavedSettings) (k : string) :
  (has_prop defaultSettings k = true -> has_prop (loadSettings saved) k = true)
  /\ match saved with
     | SettingsObject fields =>
         (has_prop fields k = false ->
            get_prop (loadSettings saved) k = get_prop defaultSettings k)
         /\ (NoDup (List.map fst fields) -> forall v, In (k, v) fields ->
               get_prop (loadSettings saved) k = v)
     | _ => loadSettings saved = defaultSettings
     end.
Proof.
  destruct saved as [| |fields]; cbn [loadSettings]; try (split; [auto | reflexivity]).
  change (spread [] defaultSettings) with defaultSettings.
  split; [|split].
  - intros H. now rewrite has_spread, H.
  - apply get_spread_absent.
  - intros Hnd v Hin. now apply get_spread_present.
Qed.

Lemma loadSettings_merges_over_defaults_witness :
  has_prop (loadSettings (SettingsObject
              [("duplicateHandling", VStr (lit "allow"))]%string)) "scanSpeed" = true
  /\ get_prop (loadSettings (SettingsObject
                 [("duplicateHandling", VStr (lit "allow"))]%string)) "duplicateHandling"
     = VStr (lit "allow").
Proof.
  split.
  - apply (proj1 (loadSettings_merges_over_defaults
                    (SettingsObject [("duplicateHandling", VStr (lit "allow"))]%string)
                    "scanSpeed")).
    reflexivity.
  - apply (proj2 (proj2 (loadSettings_merges_over_defaults
                    (SettingsObject [("duplicateHandling", VStr (lit "allow"))]%string)
                    "duplicateHandling"))).
    + repeat constructor. intros [].
    + left. reflexivity.
Defined.

(** A scanner whose settings come from [loadSettings] blocks
    duplicates unless the stored object itself says otherwise: with no
    stored item, an unparsable one, or an object without a
    [duplicateHandling] key, [isDuplicate] answers true exactly for the
    texts already in the log. *)
Theorem loaded_settings_block_by_default (st : Scanner) (saved : SavedSettings)
        (text : jsstring) :
  settings st = loadSettings saved ->
  match saved with
  | SettingsObject fields => has_prop fields "duplicateHandling" = false
  | _ => True
  end ->
  (result (isDuplicate text) st = true <-> text_in_log text (scanData st)).
Proof.
  intros Hset Hsaved. apply isDuplicate_blocking. rewrite Hset.
  assert (Hget : get_prop (loadSettings saved) "duplicateHandling" = VStr (lit "block")).
  { destruct saved as [| |fields]; cbn [loadSettings]; try reflexivity.
    change (spread [] defaultSettings) with defaultSettings.
    now rewrite get_spread_absent. }
  rewrite Hget. discriminate.
Qed.

Lemma loaded_settings_block_by_default_witness :
  result (isDuplicate (lit "036000291452"))
         (mkScanner None [upc_record] 0 0
            (loadSettings (SettingsObject [("scanSpeed", VNum (Num 50))]%string))
            None (fun _ => 0) (fun _ => []) 0) = true
  <-> text_in_log (lit "036000291452") [upc_record].
Proof.
  apply (loaded_settings_block_by_default
           (mkScanner None [upc_record] 0 0
              (loadSettings (SettingsObject [("scanSpeed", VNum (Num 50))]%string))
              None (fun _ => 0) (fun _ => []) 0)
           (SettingsObject [("scanSpeed", VNum (Num 50))]%string)
           (lit "036000291452")).
  - reflexivity.
  - reflexivity.
Defined.

(** ** Routing of a record to the sheet columns *)

Lemma mirrors_routed (d : Detection) (r : jsobj) :
  isValid (analyzeBarcodeType (det_text d)) = true ->
  get_prop r "type" = VStr (lit (type (analyzeBarcodeType (det_text d)))) ->
  get_prop r "text" = VStr (det_text d) ->
  routed_by_type d r.
Proof.
  intros Hvalid Htype Htext. unfold routed_by_type. cbv zeta.
  split; [exact Htype|]. split; [exact Htext|]. split.
  - intros Hempty. rewrite Hempty in Hvalid. vm_compute in Hvalid. discriminate Hvalid.
  - unfold sync_imei_meid, sync_upc. rewrite Htype, Htext.
    destruct (shape_types (det_text d)) as [H|[H|[H|[H|[H|H]]]]];
      rewrite H in *; try discriminate Hvalid; cbn; tauto.
Qed.

(** Every record that [processDetectedBarcodes] appends goes to the
    sheet column of its type: for a detection classified IMEI or MEID
    the row has the detection's text under [imei_meid] and the empty
    string under [upc]; for one classified UPC-A, UPC-E or EAN-13 it has
    the empty string under [imei_meid] and the text under [upc]. The
    text is never empty, so exactly one of the two columns is filled,
    and the [startsWith] test never fails on such a record. *)
Theorem appended_records_are_routed (st : Scanner) (results : list Detection) :
  exists added,
    scanData (after (processDetectedBarcodes results) st) = scanData st ++ added
    /\ Forall2 routed_by_type (filter (accepted st) results) added.
Proof.
  destruct (processDetectedBarcodes_run st results) as (added & Hlog & Hrec & _).
  exists added. split; [exact Hlog|].
  eapply Forall2_filter_impl; [|exact Hrec].
  intros d r Hacc Hr.
  unfold accepted in Hacc. apply andb_true_iff in Hacc. destruct Hacc as [Hvalid _].
  destruct (built_record_mirrors st d r Hvalid Hr) as (Htext & _ & _ & Htype & _).
  exact (mirrors_routed d r Hvalid Htype Htext).
Qed.

(** ** Batches that add nothing, and the "allow" policy *)

(** Detections of unknown shape have no effect at all: a batch made of
    them leaves the scanner exactly as it was, counters, session id and
    clock included. *)
Theorem unknown_shapes_change_nothing (st : Scanner) (results : list Detection) :
  Forall (fun d => isValid (analyzeBarcodeType (det_text d)) = false) results ->
  processDetectedBarcodes results st = (tt, st).
Proof.
  intros Hall.
  assert (Hloop : forall acc, for_of processOne results acc st = (acc, st)).
  { induction Hall as [|d results Hd _ IH]; intros acc; [reflexivity|].
    cbn [for_of]. unfold bind. rewrite processOne_run.
    unfold accepted, blocked. rewrite Hd. cbn [andb]. apply IH. }
  unfold processDetectedBarcodes, bind. now rewrite Hloop.
Qed.

Lemma unknown_shapes_change_nothing_witness :
  processDetectedBarcodes
    [mkDetection (lit "12345") (VNum (Num 4)) (VRef 1) None 1700000000000;
     mkDetection (lit "hello world") (VNum (Num 11)) (VRef 2) None 1700000000100]
    scanner0
  = (tt, scanner0).
Proof.
  apply (unknown_shapes_change_nothing scanner0).
  repeat constructor.
Defined.

(** Under the policy "allow" nothing is turned away: every detection of
    a known shape is appended, repeats included, and [duplicateCount]
    stays as it is. *)
Theorem allow_policy_appends_every_valid_detection (st : Scanner)
        (results : list Detection) :
  get_prop (settings st) "duplicateHandling" = VStr (lit "allow") ->
  let st' := after (processDetectedBarcodes results) st in
  List.length (scanData st')
  = (List.length (scanData st)
     + List.length (filter (fun d => isValid (analyzeBarcodeType (det_text d))) results))%nat
  /\ duplicateCount st' = duplicateCount st.
Proof.
  intros Hpol. cbv zeta.
  destruct (processDetectedBarcodes_run st results)
    as (added & Hlog & Hrec & _ & Hdc & _).
  assert (Hdup : forall d, result (isDuplicate (det_text d)) st = false).
  { intros d. unfold result. rewrite isDuplicate_run, Hpol. reflexivity. }
  apply Forall2_length in Hrec.
  rewrite Hlog, length_app, <- Hrec, Hdc.
  rewrite (filter_ext (accepted st) (fun d => isValid (analyzeBarcodeType (det_text d))))
    by (intros d; unfold accepted; rewrite Hdup; apply andb_true_r).
  rewrite (filter_ext (blocked st) (fun _ => false))
    by (intros d; unfold blocked; rewrite Hdup; apply andb_false_r).
  rewrite filter_false. split; [reflexivity | cbn; lia].
Qed.

Lemma allow_policy_appends_every_valid_detection_witness :
  List.length (scanData (after (processDetectedBarcodes [upc_detection])
                               (with_policy (VStr (lit "allow")) [upc_record])))
  = (List.length [upc_record]
     + List.length (filter (fun d => isValid (analyzeBarcodeType (det_text d)))
                           [upc_detection]))%nat
  /\ duplicateCount (after (processDetectedBarcodes [upc_detection])
                           (with_policy (VStr (lit "allow")) [upc_record]))
     = 0.
Proof.
  apply (allow_policy_appends_every_valid_detection
           (with_policy (VStr (lit "allow")) [upc_record]) [upc_detection]).
  reflexivity.
Defined.

(** ** Vendor lookup *)

(** The vendor is decided by the first two code units alone, although
    the lookup first cuts an eight-character allocation code; it is
    Apple, Samsung, Huawei or Xiaomi exactly for the prefixes 01, 35,
    86 and 99 and Unknown for every other text, the empty one and
    one-character ones included. *)
Theorem vendor_depends_on_first_two (imei : jsstring) :
  getIMEIVendor imei = getIMEIVendor (firstn 2 imei)
  /\ (getIMEIVendor imei = "Apple"%string <-> firstn 2 imei = lit "01")
  /\ (getIMEIVendor imei = "Samsung"%string <-> firstn 2 imei = lit "35")
  /\ (getIMEIVendor imei = "Huawei"%string <-> firstn 2 imei = lit "86")
  /\ (getIMEIVendor imei = "Xiaomi"%string <-> firstn 2 imei = lit "99")
  /\ (getIMEIVendor imei = "Unknown"%string
      <-> ~ In (firstn 2 imei) [lit "01"; lit "35"; lit "86"; lit "99"]).
Proof.
  split.
  - rewrite !getIMEIVendor_spec. unfold Spec.vendor_of.
    now rewrite firstn_firstn.
  - rewrite getIMEIVendor_spec. unfold Spec.vendor_of. cbv zeta.
    generalize (firstn 2 imei) as p. intros p.
    destruct (jsstring_eqb p (lit "01")) eqn:E1;
      [apply jsstring_eqb_eq in E1; subst p; cbn; intuition (try discriminate; auto)|].
    destruct (jsstring_eqb p (lit "35")) eqn:E2;
      [apply jsstring_eqb_eq in E2; subst p; cbn; intuition (try discriminate; auto)|].
    destruct (jsstring_eqb p (lit "86")) eqn:E3;
      [apply jsstring_eqb_eq in E3; subst p; cbn; intuition (try discriminate; auto)|].
    destruct (jsstring_eqb p (lit "99")) eqn:E4;
      [apply jsstring_eqb_eq in E4; subst p; cbn; intuition (try discriminate; auto)|].
    assert (N1 : p <> lit "01") by (intros ->; discriminate E1).
    assert (N2 : p <> lit "35") by (intros ->; discriminate E2).
    assert (N3 : p <> lit "86") by (intros ->; discriminate E3).
    assert (N4 : p <> lit "99") by (intros ->; discriminate E4).
    cbn [In]. intuition (try discriminate; try congruence).
Qed.
